(** * FirefoxSyncXHRPolyfix: a shallow embedding and its properties

    The polyfix of [src/FirefoxSyncXHRPolyfix.js] patches [XMLHttpRequest]
    and [window.postMessage] so that events of asynchronous requests and
    posted messages are held back while a synchronous request is going on,
    and are replayed afterwards.

    The closure variables of the script become the fields of [State]; the
    patched functions become state transformers in a small state and
    exception monad; the functions queued in [currentlyBlockedEvents] and
    the functions handed to [Promise.resolve().then] are defunctionalised
    ([Closure], [Microtask]).  Code that the script calls but does not
    define (user handlers, the native [send], [open], [postMessage]) is a
    parameter of the section [Polyfix]; [Script.exec] later ties the knot
    for whole programs.

    The optional logging hook [debug] is modelled as absent, which is its
    default ([window.FxSyncXHRPolyfixDebug || false]).  The probe
    [polyfixNeeded] is not part of this development.  The lookup
    [findProperty] and the overrides of [addEventListener] and
    [removeEventListener] are modelled on their own, apart from [State]:
    in the programs of [Script] handlers reach the host through the on*
    properties. *)

From stdpp Require Import gmap strings list pretty.
From Stdlib Require Import ZArith.

Set Warnings "-register-all".

Local Open Scope string_scope.
Local Open Scope list_scope.
Local Open Scope Z_scope.

(** ** Values *)

(** Objects are known by identity. *)
Definition ObjId := nat.

(** The JavaScript values that reach the polyfix. *)
Inductive Value : Type :=
| VUndefined
| VNull
| VBool (b : bool)
| VNum (n : Z)
| VStr (s : string)
| VFunction (f : ObjId) (handleEvent : option ObjId)
    (* a callable; it may carry a [handleEvent] method of its own *)
| VListener (o : ObjId) (handleEvent : ObjId)
    (* an object that is not callable and exposes [handleEvent] *)
| VEvent (type : string) (loaded : option Z)
    (* an event object; [loaded] is undefined unless it is a ProgressEvent *)
| VArguments (args : list Value)
    (* an [arguments] object passed on as one value *)
| VXhr (x : ObjId)
| VWindow (w : ObjId)
| VTypeError
| VInvalidStateError
| VException (tag : string).

(** ToBoolean. *)
Definition truthy (v : Value) : bool :=
  match v with
  | VUndefined | VNull => false
  | VBool b => b
  | VNum n => negb (n =? 0)
  | VStr s => negb (String.eqb s EmptyString)
  | _ => true
  end.

(** [text.substr(0, n)]: a negative length counts as 0, a length past
    the end stops at the end. *)
Definition substr0 (text : string) (n : Z) : string :=
  String.substring 0 (Z.to_nat n) text.

(** [text.length] as a JavaScript number. *)
Definition str_length (text : string) : Z := Z.of_nat (String.length text).

(** ** Queued functions *)

(** The object literal given to [spoofXHRState], as the list of its own
    properties in enumeration order; [None] is the value [undefined]. *)
Definition SpoofValues := list (string * option Z).

(** A function sitting in [currentlyBlockedEvents]. *)
Inductive Closure : Type :=
| CWrappedHandler (xhr : ObjId) (spoofs : SpoofValues) (handler : Value)
    (args : list Value) (description : string)
| CPostMessage (wnd : Value) (args : list Value).

(** A function handed to [Promise.resolve().then]. *)
Inductive Microtask : Type :=
| MUnblockEventsIfNecessary
| MPostMessage (wnd : Value) (args : list Value).

(** ** The host *)

(** What the polyfix calls and does not define. *)
Inductive External : Type :=
| ECall (f : ObjId) (this : Value) (args : list Value)
    (* the body of a user function *)
| EOldXHRSend (x : ObjId) (args : list Value)
| EOldXHROpen (x : ObjId) (args : list Value)
| EOldPM (wnd : Value) (args : list Value).

(** The function [wrapHandler(handler, type)] returns. *)
Record Wrapper := MkWrapper { w_handler : Value; w_type : string }.

(** The native side of one request object. *)
Record HostXhr := MkHostXhr {
  hx_readyState : Z;
  hx_responseText : string;
  hx_responseType : string;
  hx_slots : gmap string Wrapper  (* the native on* slots *)
}.

Definition fresh_xhr : HostXhr := MkHostXhr 0 EmptyString EmptyString ∅.

(** ** State *)

Record State := MkState {
  XHRStateSpoofs : gmap ObjId (gmap string (option Z));
  openSyncXHRs : gset ObjId;
  unblockingEvents : bool;
  currentlyBlockingOnSyncXHRs : Z;
  mustUnblockEventsNow : bool;
  currentlyBlockedEvents : option (list Closure);  (* [None]: still undefined *)
  currentHandler : gmap string Value;  (* one variable per on* name *)
  xhrs : gmap ObjId HostXhr;
  microtasks : list Microtask;
  trace : list External  (* the external calls made so far, oldest first *)
}.

Definition initial : State :=
  MkState ∅ ∅ false 0 false None ∅ ∅ [] [].

Definition set_XHRStateSpoofs v (s : State) : State :=
  MkState v (openSyncXHRs s) (unblockingEvents s) (currentlyBlockingOnSyncXHRs s)
    (mustUnblockEventsNow s) (currentlyBlockedEvents s) (currentHandler s)
    (xhrs s) (microtasks s) (trace s).
Definition set_openSyncXHRs v (s : State) : State :=
  MkState (XHRStateSpoofs s) v (unblockingEvents s) (currentlyBlockingOnSyncXHRs s)
    (mustUnblockEventsNow s) (currentlyBlockedEvents s) (currentHandler s)
    (xhrs s) (microtasks s) (trace s).
Definition set_unblockingEvents v (s : State) : State :=
  MkState (XHRStateSpoofs s) (openSyncXHRs s) v (currentlyBlockingOnSyncXHRs s)
    (mustUnblockEventsNow s) (currentlyBlockedEvents s) (currentHandler s)
    (xhrs s) (microtasks s) (trace s).
Definition set_currentlyBlockingOnSyncXHRs v (s : State) : State :=
  MkState (XHRStateSpoofs s) (openSyncXHRs s) (unblockingEvents s) v
    (mustUnblockEventsNow s) (currentlyBlockedEvents s) (currentHandler s)
    (xhrs s) (microtasks s) (trace s).
Definition set_mustUnblockEventsNow v (s : State) : State :=
  MkState (XHRStateSpoofs s) (openSyncXHRs s) (unblockingEvents s)
    (currentlyBlockingOnSyncXHRs s) v (currentlyBlockedEvents s) (currentHandler s)
    (xhrs s) (microtasks s) (trace s).
Definition set_currentlyBlockedEvents v (s : State) : State :=
  MkState (XHRStateSpoofs s) (openSyncXHRs s) (unblockingEvents s)
    (currentlyBlockingOnSyncXHRs s) (mustUnblockEventsNow s) v (currentHandler s)
    (xhrs s) (microtasks s) (trace s).
Definition set_currentHandler v (s : State) : State :=
  MkState (XHRStateSpoofs s) (openSyncXHRs s) (unblockingEvents s)
    (currentlyBlockingOnSyncXHRs s) (mustUnblockEventsNow s)
    (currentlyBlockedEvents s) v (xhrs s) (microtasks s) (trace s).
Definition set_xhrs v (s : State) : State :=
  MkState (XHRStateSpoofs s) (openSyncXHRs s) (unblockingEvents s)
    (currentlyBlockingOnSyncXHRs s) (mustUnblockEventsNow s)
    (currentlyBlockedEvents s) (currentHandler s) v (microtasks s) (trace s).
Definition set_microtasks v (s : State) : State :=
  MkState (XHRStateSpoofs s) (openSyncXHRs s) (unblockingEvents s)
    (currentlyBlockingOnSyncXHRs s) (mustUnblockEventsNow s)
    (currentlyBlockedEvents s) (currentHandler s) (xhrs s) v (trace s).
Definition set_trace v (s : State) : State :=
  MkState (XHRStateSpoofs s) (openSyncXHRs s) (unblockingEvents s)
    (currentlyBlockingOnSyncXHRs s) (mustUnblockEventsNow s)
    (currentlyBlockedEvents s) (currentHandler s) (xhrs s) (microtasks s) v.

(** The native object behind an identity; an object never touched is a
    fresh request. *)
Definition host_xhr (x : ObjId) (s : State) : HostXhr :=
  default fresh_xhr (xhrs s !! x).

(** ** The monad: state, exceptions, and running out of fuel *)

Inductive Outcome (A : Type) : Type :=
| Ret (a : A)
| Exc (e : Value).
Arguments Ret {A} a.
Arguments Exc {A} e.

(** [None] stands for a computation that did not finish within its fuel. *)
Definition M (A : Type) : Type := State -> option (State * Outcome A).

Definition ret {A} (a : A) : M A := fun s => Some (s, Ret a).
Definition throw {A} (e : Value) : M A := fun s => Some (s, Exc e).
Definition bind {A B} (m : M A) (k : A -> M B) : M B :=
  fun s =>
    match m s with
    | Some (s', Ret a) => k a s'
    | Some (s', Exc e) => Some (s', Exc e)
    | None => None
    end.
(** [try { m } catch (exc) { ... }]: the result tells which way [m] ended. *)
Definition try_catch {A} (m : M A) : M (Outcome A) :=
  fun s =>
    match m s with
    | Some (s', o) => Some (s', Ret o)
    | None => None
    end.
Definition gets {A} (f : State -> A) : M A := fun s => Some (s, Ret (f s)).
Definition modify (f : State -> State) : M unit := fun s => Some (f s, Ret tt).

Notation "'let*' x := m 'in' k" := (bind m (fun x => k))
  (at level 10, x name, m at level 100, k at level 200).
Notation "m ;; k" := (bind m (fun _ => k))
  (at level 100, k at level 200, right associativity).

(** ** The patched functions *)

(** The host getters the script looks up with [findProperty] and keeps
    as [oldXHRRS] and [oldXHRRT].  The native [responseText] getter
    raises InvalidStateError unless the response type is text. *)
Definition text_shaped (responseType : string) : bool :=
  String.eqb responseType EmptyString || String.eqb responseType "text".

Definition oldXHRRS (this : ObjId) : M Z :=
  gets (fun s => hx_readyState (host_xhr this s)).

Definition oldXHRRT (this : ObjId) : M string :=
  let* h := gets (host_xhr this) in
  if text_shaped (hx_responseType h) then ret (hx_responseText h)
  else throw VInvalidStateError.

(** [nativeSet.call(this, wrapper)] for the slot [name]. *)
Definition nativeSet (name : string) (this : ObjId) (w : Wrapper) : M unit :=
  modify (fun s =>
    let h := host_xhr this s in
    set_xhrs (<[this := MkHostXhr (hx_readyState h) (hx_responseText h)
                          (hx_responseType h) (<[name := w]> (hx_slots h))]>
              (xhrs s)) s).

(** [Promise.resolve().then(t)]. *)
Definition schedule (t : Microtask) : M unit :=
  modify (fun s => set_microtasks (microtasks s ++ [t]) s).

(** Reading a property of a spoof object: absent reads as undefined. *)
Definition spoof_prop (name : string) (spoofs : gmap string (option Z)) : option Z :=
  default None (spoofs !! name).

Definition spoofXHRState (xhr : ObjId) (values : SpoofValues) : M unit :=
  modify (fun s =>
    let currentSpoofs := default ∅ (XHRStateSpoofs s !! xhr) in
    set_XHRStateSpoofs
      (<[xhr := foldl (fun o nv => <[nv.1 := nv.2]> o) currentSpoofs values]>
         (XHRStateSpoofs s)) s).

(** The [readyState] getter. *)
Definition get_readyState (this : ObjId) : M Z :=
  let* entry := gets (fun s => XHRStateSpoofs s !! this) in
  let override := match entry with
                  | Some spoofs => spoof_prop "readyState" spoofs
                  | None => None
                  end in
  match override with
  | Some n => if n =? 0 then oldXHRRS this else ret n
  | None => oldXHRRS this
  end.

(** The [responseText] getter. *)
Definition get_responseText (this : ObjId) : M string :=
  let* text := oldXHRRT this in
  let* entry := gets (fun s => XHRStateSpoofs s !! this) in
  match entry with
  | Some spoofs =>
      match spoof_prop "responseTextLength" spoofs with
      | Some length =>
          if length =? str_length text then ret text
          else ret (substr0 text length)
      | None => ret text
      end
  | None => ret text
  end.

(** The eight on* slots. *)
Inductive EvtName : Type :=
| abort | error | load | loadend | loadstart | progress | readystatechange
| timeout.

Definition evt_string (evt : EvtName) : string :=
  match evt with
  | abort => "abort" | error => "error" | load => "load"
  | loadend => "loadend" | loadstart => "loadstart" | progress => "progress"
  | readystatechange => "readystatechange" | timeout => "timeout"
  end.

Definition on_name (evt : EvtName) : string := "on" +:+ evt_string evt.

Definition wrapHandler (handler : Value) (type : string) : Wrapper :=
  MkWrapper handler type.

Definition set_on (evt : EvtName) (this : ObjId) (handler : Value) : M unit :=
  let name := on_name evt in
  modify (fun s => set_currentHandler (<[name := handler]> (currentHandler s)) s) ;;
  nativeSet name this (wrapHandler handler name).

Definition get_on (evt : EvtName) (this : ObjId) : M Value :=
  gets (fun s => default VUndefined (currentHandler s !! on_name evt)).

(** [currentlyBlockedEvents.push(f)]. *)
Definition push (f : Closure) : M unit :=
  let* q := gets currentlyBlockedEvents in
  match q with
  | Some l => modify (set_currentlyBlockedEvents (Some (l ++ [f])))
  | None => throw VTypeError
  end.

(** [handler.handleEvent]: reading a property of null or undefined is a
    TypeError. *)
Definition get_handleEvent (handler : Value) : M (option ObjId) :=
  match handler with
  | VUndefined | VNull => throw VTypeError
  | VFunction _ m => ret m
  | VListener _ m => ret (Some m)
  | _ => ret None
  end.

Definition is_sync (this : ObjId) : M bool :=
  gets (fun s => bool_decide (this ∈ openSyncXHRs s)).

Definition blocking : M bool :=
  gets (fun s => negb (currentlyBlockingOnSyncXHRs s =? 0)).

(** The test [arguments.length > 2 && !arguments[2]] of [open]. *)
Definition marks_sync (arguments : list Value) : bool :=
  (2 <? length arguments)%nat
  && negb (truthy (default VUndefined (arguments !! 2%nat))).

(** The test [!isSync && currentlyBlockingOnSyncXHRs] of a wrapper. *)
Inductive Decision : Type := RunNow | Queue.

Definition admission (isSync blocking : bool) : Decision :=
  if negb isSync && blocking then Queue else RunNow.

Section Polyfix.

(** The code the polyfix calls and does not define. *)
Variable external : External -> M Value.

(** [handler.handleEvent(args)]: the method runs with the handler as
    [this] and receives the arguments object as its one argument. *)
Definition call_handleEvent (handler : Value) (m : ObjId) (args : list Value)
  : M Value :=
  external (ECall m handler [VArguments args]).

(** [handler.apply(this, args)]: a TypeError unless [handler] is callable. *)
Definition apply_handler (handler this : Value) (args : list Value) : M Value :=
  match handler with
  | VFunction f _ => external (ECall f this args)
  | _ => throw VTypeError
  end.

Definition open (this : ObjId) (arguments : list Value) : M Value :=
  (if marks_sync arguments
   then modify (fun s => set_openSyncXHRs ({[this]} ∪ openSyncXHRs s) s)
   else ret tt) ;;
  external (EOldXHROpen this arguments).

(** Calling a queued function: [wrappedHandler] of [wrapHandler], or the
    inner [postMessage] function.  Under "use strict" the call [evt()]
    runs it with [this] undefined. *)
Definition call_closure (evt : Closure) : M Value :=
  match evt with
  | CWrappedHandler xhr spoofs handler args _ =>
      spoofXHRState xhr spoofs ;;
      let* m := get_handleEvent handler in
      (match m with
       | Some m => call_handleEvent handler m args
       | None => ret VUndefined
       end) ;;
      let* returnValue := apply_handler handler VUndefined args in
      spoofXHRState xhr [("readyState", None); ("responseTextLength", None)] ;;
      ret returnValue
  | CPostMessage wnd args =>
      external (EOldPM wnd args) ;;
      ret VUndefined
  end.

(** The [while] loop of [unblockEventsIfNecessary].  The result lists
    the functions it called, in call order. *)
Fixpoint drain (fuel : nat) : M (list Closure) :=
  match fuel with
  | O => fun _ => None
  | S fuel' =>
      let* q := gets currentlyBlockedEvents in
      match q with
      | None => throw VTypeError
      | Some [] => ret []
      | Some (evt :: rest) =>
          modify (set_currentlyBlockedEvents (Some rest)) ;;
          call_closure evt ;;
          let* called := drain fuel' in
          ret (evt :: called)
      end
  end.

Definition unblockEventsIfNecessary (fuel : nat) : M (list Closure) :=
  let* must := gets mustUnblockEventsNow in
  if must then
    modify (set_mustUnblockEventsNow false) ;;
    let* unblocking := gets unblockingEvents in
    if negb unblocking then
      modify (set_unblockingEvents true) ;;
      let* called := drain fuel in
      modify (set_unblockingEvents true) ;;
      modify (fun s => set_currentlyBlockingOnSyncXHRs
                         (currentlyBlockingOnSyncXHRs s - 1) s) ;;
      ret called
    else ret []
  else ret [].

Definition send (fuel : nat) (this : ObjId) (arguments : list Value) : M Value :=
  let* sync := is_sync this in
  if sync then
    unblockEventsIfNecessary fuel ;;
    modify (fun s => set_currentlyBlockingOnSyncXHRs
                       (currentlyBlockingOnSyncXHRs s + 1) s) ;;
    modify (set_currentlyBlockedEvents (Some [])) ;;
    let* caught := try_catch (external (EOldXHRSend this [])) in
    let* depth := gets currentlyBlockingOnSyncXHRs in
    (if depth =? 1 then
       modify (set_mustUnblockEventsNow true) ;;
       schedule MUnblockEventsIfNecessary
     else ret tt) ;;
    match caught with
    | Exc caughtException =>
        if truthy caughtException then throw caughtException
        else ret VUndefined
    | Ret _ => ret VUndefined
    end
  else
    external (EOldXHRSend this [VArguments arguments]) ;;
    ret VUndefined.

(** The patched [window.postMessage] only schedules its inner function. *)
Definition postMessage (this : Value) (arguments : list Value) : M Value :=
  schedule (MPostMessage this arguments) ;;
  ret VUndefined.

(** The inner function, run one tick later. *)
Definition postMessage_tick (wnd : Value) (args : list Value) : M Value :=
  let* b := blocking in
  if b then
    push (CPostMessage wnd args) ;;
    ret VUndefined
  else
    external (EOldPM wnd args) ;;
    ret VUndefined.

(** The immediate branch of a wrapper. *)
Definition run_now (handler this : Value) (args : list Value) : M Value :=
  let* m := get_handleEvent handler in
  match m with
  | Some m => call_handleEvent handler m args
  | None => apply_handler handler this args
  end.

(** The object literal [spoofs] built by a wrapper. *)
Definition capture (this : ObjId) (args : list Value) (readyState : Z)
  : M SpoofValues :=
  let* responseType := gets (fun s => hx_responseType (host_xhr this s)) in
  if text_shaped responseType then
    if readyState <? 3 then
      ret [("readyState", Some readyState); ("responseTextLength", Some 0)]
    else
      match args !! 0%nat with
      | Some (VEvent type loaded) =>
          if String.eqb type "progress" then
            ret [("readyState", Some readyState); ("responseTextLength", loaded)]
          else
            let* text := get_responseText this in
            ret [("readyState", Some readyState);
                 ("responseTextLength", Some (str_length text))]
      | _ =>
          let* text := get_responseText this in
          ret [("readyState", Some readyState);
               ("responseTextLength", Some (str_length text))]
      end
  else ret [("readyState", Some readyState)].

(** Calling the function returned by [wrapHandler(handler, type)] on the
    request [this]. *)
Definition call_wrapper (w : Wrapper) (this : ObjId) (args : list Value)
  : M Value :=
  let handler := w_handler w in
  let* readyState := get_readyState this in
  let* spoofs := capture this args readyState in
  let* isSync := is_sync this in
  let description :=
    w_type w +:+ "(" +:+ pretty readyState +:+ ","
      +:+ (if isSync then "true" else "false") +:+ ")" in
  let* b := blocking in
  match admission isSync b with
  | Queue =>
      push (CWrappedHandler this spoofs handler args description) ;;
      ret VUndefined
  | RunNow => run_now handler (VXhr this) args
  end.

(** Running one scheduled function. *)
Definition run_microtask (fuel : nat) (t : Microtask) : M Value :=
  match t with
  | MUnblockEventsIfNecessary => unblockEventsIfNecessary fuel ;; ret VUndefined
  | MPostMessage wnd args => postMessage_tick wnd args
  end.

End Polyfix.

(** ** Whole programs

    User code and host code are trees of calls into the patched
    interface; [exec] runs them against the definitions above, giving
    the section parameter [external] its meaning. *)
Module Script.

Inductive Step : Type :=
(* what a page can do *)
| SOpen (x : ObjId) (args : list Value)
| SSend (x : ObjId) (args : list Value)
| SPostMessage (wnd : Value) (args : list Value)
| SSetOn (evt : EvtName) (x : ObjId) (handler : Value)
| SGetOn (evt : EvtName) (x : ObjId)
| SReadyState (x : ObjId)
| SResponseText (x : ObjId)
| SResponseType (x : ObjId) (responseType : string)
(* what the host does *)
| SNative (x : ObjId) (readyState : Z) (responseText : string)
    (* the request progresses *)
| SFire (evt : EvtName) (x : ObjId) (event : Value)
    (* the function in the native on* slot is called on [x] *)
| STick.
    (* the scheduled functions run *)

Inductive Code : Type :=
| Return (v : Value)
| Raise (e : Value)
| Do (st : Step) (k : Outcome Value -> Code).

(** The bodies of the functions the polyfix calls. *)
Record Env := MkEnv {
  body : ObjId -> Value -> list Value -> Code;
  native_send : ObjId -> list Value -> Code;
  native_open : ObjId -> list Value -> Code;
  native_postMessage : Value -> list Value -> Code
}.

Definition code_of (env : Env) (e : External) : Code :=
  match e with
  | ECall f this args => body env f this args
  | EOldXHRSend x args => native_send env x args
  | EOldXHROpen x args => native_open env x args
  | EOldPM wnd args => native_postMessage env wnd args
  end.

Definition log (e : External) : M unit :=
  modify (fun s => set_trace (trace s ++ [e]) s).

Definition set_native (x : ObjId) (f : HostXhr -> HostXhr) : M unit :=
  modify (fun s => set_xhrs (<[x := f (host_xhr x s)]> (xhrs s)) s).

Section Steps.

Variable external : External -> M Value.

(** Dispatch to the on* slot: an exception of the listener is
    reported by the host and goes no further. *)
Definition fire (evt : EvtName) (x : ObjId) (event : Value) : M Value :=
  let* h := gets (host_xhr x) in
  match hx_slots h !! on_name evt with
  | Some w => try_catch (call_wrapper external w x [event]) ;; ret VUndefined
  | None => ret VUndefined
  end.

(** The scheduled functions run in turn until none is left; an
    exception of one does not stop the next. *)
Fixpoint tick (fuel : nat) : M Value :=
  match fuel with
  | O => fun _ => None
  | S fuel' =>
      let* ts := gets microtasks in
      match ts with
      | [] => ret VUndefined
      | t :: rest =>
          modify (set_microtasks rest) ;;
          try_catch (run_microtask external fuel' t) ;;
          tick fuel'
      end
  end.

Definition step (fuel : nat) (st : Step) : M Value :=
  match st with
  | SOpen x args => open external x args
  | SSend x args => send external fuel x args
  | SPostMessage wnd args => postMessage wnd args
  | SSetOn evt x handler => set_on evt x handler ;; ret handler
  | SGetOn evt x => get_on evt x
  | SReadyState x => let* n := get_readyState x in ret (VNum n)
  | SResponseText x => let* t := get_responseText x in ret (VStr t)
  | SResponseType x responseType =>
      set_native x (fun h => MkHostXhr (hx_readyState h) (hx_responseText h)
                               responseType (hx_slots h)) ;;
      ret VUndefined
  | SNative x readyState responseText =>
      set_native x (fun h => MkHostXhr readyState responseText
                               (hx_responseType h) (hx_slots h)) ;;
      ret VUndefined
  | SFire evt x event => fire evt x event
  | STick => tick fuel
  end.

End Steps.

Section Exec.

Variable env : Env.

Fixpoint exec (fuel : nat) (c : Code) {struct fuel} : M Value :=
  match fuel with
  | O => fun _ => None
  | S fuel' =>
      match c with
      | Return v => ret v
      | Raise e => throw e
      | Do st k =>
          let* o := try_catch
                      (step (fun e => log e ;; exec fuel' (code_of env e))
                            fuel' st) in
          exec fuel' (k o)
      end
  end.

(** The meaning [exec] gives to the calls out of the polyfix. *)
Definition external (fuel : nat) (e : External) : M Value :=
  log e ;; exec fuel (code_of env e).

End Exec.

(** [st >> c]: do [st], let an exception pass, go on with [c]. *)
Definition seq (st : Step) (c : Code) : Code :=
  Do st (fun o => match o with Ret _ => c | Exc e => Raise e end).

End Script.

(** ** Scenarios *)

(** A host that does nothing and functions that return at once. *)
Definition idle : External -> M Value := fun _ => ret VUndefined.

Definition GET : list Value := [VStr "GET"; VStr "/"].

(** The state a program ends in; [initial] if it runs out of fuel. *)
Definition final (r : option (State * Outcome Value)) : State :=
  match r with
  | Some (s, _) => s
  | None => initial
  end.

Module Scenario.
Import Script.

(** Request 1 is synchronous, request 2 asynchronous (and request 3,
    where used, synchronous).  While the native [send] of request 1
    blocks, request 2 reports progress and completes. *)
Definition progress_event : Value := VEvent "progress" (Some 3).
Definition load_event : Value := VEvent "load" None.

Definition b_loads : Code :=
  seq (SNative 2%nat 4 "hello")
  (seq (SFire load 2%nat load_event)
  (Return VUndefined)).

Definition b_progresses_and_loads : Code :=
  seq (SNative 2%nat 3 "hel")
  (seq (SFire progress 2%nat progress_event)
  b_loads).

Definition setup : Code -> Code := fun c =>
  seq (SOpen 1%nat (GET ++ [VBool false]))
  (seq (SOpen 2%nat GET)
  c).

(** *** Two rounds: the handler of request 2 is function 10. *)
Definition env_rounds : Env :=
  MkEnv (fun _ _ _ => Return VUndefined)
        (fun x _ => if (x =? 1)%nat then b_loads else Return VUndefined)
        (fun _ _ => Return VUndefined)
        (fun _ _ => Return VUndefined).

Definition round : Code -> Code := fun c =>
  seq (SOpen 1%nat (GET ++ [VBool false]))
  (seq (SSend 1%nat [])
  (seq STick
  c)).

Definition one_round : Code :=
  setup
  (seq (SSetOn load 2%nat (VFunction 10%nat None))
  (seq (SSend 2%nat [])
  (round (Return VUndefined)))).

Definition two_rounds : Code :=
  setup
  (seq (SSetOn load 2%nat (VFunction 10%nat None))
  (seq (SSend 2%nat [])
  (round (round (Return VUndefined))))).

(** *** A synchronous request started from a replayed handler:
    function 10 (progress) opens and sends request 3, function 11
    (load) does nothing. *)
Definition env_nested : Env :=
  MkEnv (fun f _ _ =>
           if (f =? 10)%nat then
             seq (SOpen 3%nat (GET ++ [VBool false]))
             (seq (SSend 3%nat [])
             (Return VUndefined))
           else Return VUndefined)
        (fun x _ => if (x =? 1)%nat then b_progresses_and_loads
                    else Return VUndefined)
        (fun _ _ => Return VUndefined)
        (fun _ _ => Return VUndefined).

Definition blocked_progress_and_load : Code :=
  setup
  (seq (SSetOn progress 2%nat (VFunction 10%nat None))
  (seq (SSetOn load 2%nat (VFunction 11%nat None))
  (seq (SSend 2%nat [])
  (seq (SSend 1%nat [])
  (Return VUndefined))))).

Definition nested_in_replay : Code :=
  seq STick (Return VUndefined).

(** *** A handler that raises: function 10 (progress) raises,
    function 11 (load) does nothing. *)
Definition boom : Value := VException "boom".

Definition env_raise : Env :=
  MkEnv (fun f _ _ => if (f =? 10)%nat then Raise boom else Return VUndefined)
        (fun x _ => if (x =? 1)%nat then b_progresses_and_loads
                    else Return VUndefined)
        (fun _ _ => Return VUndefined)
        (fun _ _ => Return VUndefined).

(** *** Handlers with a [handleEvent] method: object 20 with method 21
    on the load slot of request 2; function 10 carrying method 11 on
    its progress slot. *)
Definition listener : Value := VListener 20%nat 21%nat.
Definition callable_listener : Value := VFunction 10%nat (Some 11%nat).

Definition env_quiet (during_send_1 : Code) : Env :=
  MkEnv (fun _ _ _ => Return VUndefined)
        (fun x _ => if (x =? 1)%nat then during_send_1 else Return VUndefined)
        (fun _ _ => Return VUndefined)
        (fun _ _ => Return VUndefined).

Definition deferred_listener : Code :=
  setup
  (seq (SSetOn load 2%nat listener)
  (seq (SSend 2%nat [])
  (seq (SSend 1%nat [])
  (seq STick
  (Return VUndefined))))).

Definition deferred_callable_listener : Code :=
  setup
  (seq (SSetOn load 2%nat callable_listener)
  (seq (SSend 2%nat [])
  (seq (SSend 1%nat [])
  (seq STick
  (Return VUndefined))))).

(** *** Sending bodies. *)
Definition send_bodies : Code :=
  setup
  (seq (SSend 2%nat [VStr "a=1"])
  (seq (SSend 1%nat [VStr "b=2"])
  (Return VUndefined))).

(** *** The on* slots of two requests. *)
Definition read_back (st : Step) : Code :=
  Do st (fun o => match o with Ret v => Return v | Exc e => Raise e end).

Definition two_onload_handlers : Code :=
  seq (SSetOn load 1%nat (VFunction 10%nat None))
  (seq (SSetOn load 2%nat (VFunction 11%nat None))
  (read_back (SGetOn load 1%nat))).

Definition onload_set_to_null : Code :=
  seq (SOpen 2%nat GET)
  (seq (SSetOn load 2%nat VNull)
  (Return VUndefined)).

(** *** The same two rounds with the second call starting before the
    drain turn of the first: the drain of round one is the forced one
    at the start of the second [send]. *)
Definition two_rounds_back_to_back : Code :=
  setup
  (seq (SSetOn load 2%nat (VFunction 10%nat None))
  (seq (SSend 2%nat [])
  (seq (SOpen 1%nat (GET ++ [VBool false]))
  (seq (SSend 1%nat [])
  (seq (SOpen 1%nat (GET ++ [VBool false]))
  (seq (SSend 1%nat [])
  (seq STick
  (Return VUndefined)))))))).

(** *** A signal blocked at stage 0.  While request 1 blocks, a load
    event is dispatched to request 2, which has not been opened yet.
    Request 2 is then opened, sent and completes.  Its load handler,
    function 10, reads [readyState] and [responseText] and posts what it
    read. *)
Definition env_stage0 : Env :=
  MkEnv (fun _ _ _ =>
           Do (SReadyState 2%nat) (fun rs =>
           Do (SResponseText 2%nat) (fun rt =>
           match rs, rt with
           | Ret n, Ret text =>
               seq (SPostMessage (VWindow 0%nat) [n; text]) (Return VUndefined)
           | _, _ => Return VUndefined
           end)))
        (fun x _ => if (x =? 1)%nat then
                      seq (SFire load 2%nat load_event) (Return VUndefined)
                    else Return VUndefined)
        (fun _ _ => Return VUndefined)
        (fun _ _ => Return VUndefined).

Definition blocked_at_stage0 : Code :=
  seq (SOpen 1%nat (GET ++ [VBool false]))
  (seq (SSetOn load 2%nat (VFunction 10%nat None))
  (seq (SSend 1%nat [])
  (seq (SOpen 2%nat GET)
  (seq (SSend 2%nat [])
  (seq (SNative 2%nat 4 "hello")
  (seq STick
  (Return VUndefined))))))).

(** *** The states the scenarios pass through. *)

(** Both signals of request 2 blocked; request 1 has returned. *)
Definition blocked10 : Closure :=
  CWrappedHandler 2%nat [("readyState", Some 3); ("responseTextLength", Some 3)]
    (VFunction 10%nat None) [progress_event] "onprogress(3,false)".
Definition blocked11 : Closure :=
  CWrappedHandler 2%nat [("readyState", Some 4); ("responseTextLength", Some 5)]
    (VFunction 11%nat None) [load_event] "onload(4,false)".

Definition before_nested_replay : State :=
  final (exec env_nested 30 blocked_progress_and_load initial).
Definition after_nested_replay : State :=
  final (exec env_nested 30 nested_in_replay before_nested_replay).

Definition before_raise : State :=
  final (exec env_raise 30 blocked_progress_and_load initial).

Definition after_one_round : State :=
  final (exec env_rounds 30 one_round initial).
Definition after_two_rounds : State :=
  final (exec env_rounds 30 two_rounds initial).
Definition after_two_rounds_back_to_back : State :=
  final (exec env_rounds 30 two_rounds_back_to_back initial).

Definition after_blocked_at_stage0 : State :=
  final (exec env_stage0 30 blocked_at_stage0 initial).

Definition after_deferred_listener : State :=
  final (exec (env_quiet b_loads) 30 deferred_listener initial).
Definition after_deferred_callable_listener : State :=
  final (exec (env_quiet b_loads) 30 deferred_callable_listener initial).

Definition after_send_bodies : State :=
  final (exec (env_quiet (Return VUndefined)) 30 send_bodies initial).

Definition after_onload_set_to_null : State :=
  final (exec (env_quiet (Return VUndefined)) 30 onload_set_to_null initial).

(** *** Two windows, each with a blocked progress signal, a blocked
    message and a blocked load signal, in that order: progress is
    handled by function 10, load by function 11, both returning at once.
    The message is posted while the native [send] of request 1 blocks,
    and its tick passes before request 2 completes. *)
Definition b_signal_message_signal : Code :=
  seq (SNative 2%nat 3 "hel")
  (seq (SFire progress 2%nat progress_event)
  (seq (SPostMessage (VWindow 0%nat) [VStr "ping"])
  (seq STick
  b_loads))).

Definition posted : Closure := CPostMessage (VWindow 0%nat) [VStr "ping"].

Definition env_windows : Env := env_quiet b_signal_message_signal.

Definition windows (c : Code) : Code :=
  setup
  (seq (SSetOn progress 2%nat (VFunction 10%nat None))
  (seq (SSetOn load 2%nat (VFunction 11%nat None))
  (seq (SSend 2%nat [])
  c))).

Definition after_first_window : State :=
  final (exec env_windows 30 (windows (round (Return VUndefined))) initial).
Definition after_second_window : State :=
  final (exec env_windows 30 (windows (round (round (Return VUndefined)))) initial).

(** *** A replayed handler raises in the middle of a pass.  While the
    native [send] of request 1 blocks, a message is posted and its tick
    passes, then request 2 reports progress and completes.  Function 10
    (progress) raises, function 11 (load) returns. *)
Definition b_message_then_signals : Code :=
  seq (SPostMessage (VWindow 0%nat) [VStr "ping"])
  (seq STick
  b_progresses_and_loads).

Definition env_raise_later : Env :=
  MkEnv (fun f _ _ => if (f =? 10)%nat then Raise boom else Return VUndefined)
        (fun x _ => if (x =? 1)%nat then b_message_then_signals
                    else Return VUndefined)
        (fun _ _ => Return VUndefined)
        (fun _ _ => Return VUndefined).

Definition before_late_raise : State :=
  final (exec env_raise_later 30 blocked_progress_and_load initial).

(** The drain of [before_late_raise]: at its start, after the replay
    of the message, and after that of the progress signal. *)
Definition late_start : State :=
  set_unblockingEvents true (set_mustUnblockEventsNow false before_late_raise).
Definition late_middle : State :=
  final (call_closure (Script.external env_raise_later 5) posted
           (set_currentlyBlockedEvents (Some [blocked10; blocked11]) late_start)).
Definition late_end : State :=
  final (call_closure (Script.external env_raise_later 5) blocked10
           (set_currentlyBlockedEvents (Some [blocked11]) late_middle)).

(** The page of [before_late_raise] after its drain turn. *)
Definition after_late_raise : State :=
  final (exec env_raise_later 30 (seq STick (Return VUndefined)) before_late_raise).

(** The drain of the first window of [windows]: before it is
    requested to run, and after the replay of the progress signal, of
    the message, and of the load signal. *)
Definition before_first_drain : State :=
  final (exec env_windows 30 blocked_progress_and_load initial).
Definition first_progress : State :=
  final (call_closure (Script.external env_windows 5) blocked10
           (set_currentlyBlockedEvents (Some [posted; blocked11])
              (set_unblockingEvents true
                 (set_mustUnblockEventsNow false before_first_drain)))).
Definition first_message : State :=
  final (call_closure (Script.external env_windows 5) posted
           (set_currentlyBlockedEvents (Some [blocked11]) first_progress)).
Definition first_end : State :=
  final (call_closure (Script.external env_windows 5) blocked11
           (set_currentlyBlockedEvents (Some []) first_message)).

(** The page of [before_first_drain] after its drain turn. *)
Definition after_first_drain : State :=
  final (exec env_windows 30 (seq STick (Return VUndefined)) before_first_drain).

(** *** A synchronous request with a readystatechange handler, function
    10, at depth 3. *)
Definition readystatechange_event : Value := VEvent "readystatechange" None.

End Scenario.

(** The state in which request 2 is natively DONE with a response and a
    replay has installed the capture of stage 0 (UNSENT). *)
Definition done_with_stage0_capture : option (State * Outcome unit) :=
  spoofXHRState 2%nat [("readyState", Some 0); ("responseTextLength", Some 0)]
    (set_xhrs {[2%nat := MkHostXhr 4 "hello" EmptyString ∅]} initial).

(** The calls of function [f] recorded in a trace: [this] and the
    arguments of each, oldest first. *)
Definition calls (f : ObjId) (tr : list External) : list (Value * list Value) :=
  omap (fun e => match e with
                 | ECall g this args =>
                     if (g =? f)%nat then Some (this, args) else None
                 | _ => None
                 end) tr.

(** The arguments the native [send] of request [x] was called with. *)
Definition sends (x : ObjId) (tr : list External) : list (list Value) :=
  omap (fun e => match e with
                 | EOldXHRSend y args =>
                     if (y =? x)%nat then Some args else None
                 | _ => None
                 end) tr.

(** The arguments the native [postMessage] was called with. *)
Definition posts (tr : list External) : list (list Value) :=
  omap (fun e => match e with
                 | EOldPM _ args => Some args
                 | _ => None
                 end) tr.

(** What a trace delivers to the page: the calls of handlers and of the
    native [postMessage], in the order they were made. *)
Definition deliveries (tr : list External) : list External :=
  omap (fun e => match e with
                 | ECall _ _ _ | EOldPM _ _ => Some e
                 | _ => None
                 end) tr.

(** [replays ext s called s']: from [s] the loop of the drain shifts
    and calls the functions [called], one after the other, each
    returning, and stands at [s']. *)
Inductive replays (ext : External -> M Value) : State -> list Closure -> State -> Prop :=
| replays_none s : replays ext s [] s
| replays_one s evt rest v s1 called s' :
    currentlyBlockedEvents s = Some (evt :: rest) ->
    call_closure ext evt (set_currentlyBlockedEvents (Some rest) s) = Some (s1, Ret v) ->
    replays ext s1 called s' ->
    replays ext s (evt :: called) s'.

(** ** Predicates used below *)

(** The guard of the drain is set. *)
Definition guarded (s : State) : Prop := unblockingEvents s = true.

Definition keeps_guard {A} (m : M A) : Prop :=
  forall s s' o, guarded s -> m s = Some (s', o) -> guarded s'.

(** Queued functions whose handler is a plain callable, and queued
    messages. *)
Definition plain (evt : Closure) : Prop :=
  match evt with
  | CWrappedHandler _ _ (VFunction _ None) _ _ => True
  | CWrappedHandler _ _ _ _ _ => False
  | CPostMessage _ _ => True
  end.

(** A page in which function 7 dispatches a load event to request 3,
    whose load handler is function 8, and every other function returns
    at once. *)
Definition dispatching : External -> M Value := fun e =>
  match e with
  | ECall f _ _ =>
      if (f =? 7)%nat then
        call_wrapper idle (MkWrapper (VFunction 8%nat None) "onload") 3%nat
          [VEvent "load" None]
      else ret VUndefined
  | _ => ret VUndefined
  end.

(** Two blocked signals of request 2, handled by functions 7 and 9,
    waiting for a drain at depth 1; and the signal function 7 will
    push. *)
Definition blocked7 : Closure :=
  CWrappedHandler 2%nat [("readyState", Some 4)] (VFunction 7%nat None)
    [VEvent "load" None] "onload(4,false)".
Definition blocked9 : Closure :=
  CWrappedHandler 2%nat [("readyState", Some 4)] (VFunction 9%nat None)
    [VEvent "loadend" None] "onloadend(4,false)".
Definition pushed8 : Closure :=
  CWrappedHandler 3%nat [("readyState", Some 0); ("responseTextLength", Some 0)]
    (VFunction 8%nat None) [VEvent "load" None] "onload(0,false)".

Definition two_blocked : State :=
  set_mustUnblockEventsNow true
    (set_currentlyBlockingOnSyncXHRs 1
       (set_currentlyBlockedEvents (Some [blocked7; blocked9]) initial)).

(** Request 1 classified synchronous, three synchronous calls deep. *)
Definition three_deep : State :=
  set_currentlyBlockingOnSyncXHRs 3
    (set_currentlyBlockedEvents (Some [])
       (set_openSyncXHRs {[1%nat]} initial)).

(** Request 2 loading a text response, with three characters arrived;
    and the same request done, with all five. *)
Definition loading_hel : State :=
  set_xhrs {[2%nat := MkHostXhr 3 "hel" EmptyString ∅]} initial.
Definition done_hello : State :=
  set_xhrs {[2%nat := MkHostXhr 4 "hello" EmptyString ∅]} initial.

(** The capture of a done request with a five character response. *)
Definition capture_4_5 : SpoofValues :=
  [("readyState", Some 4); ("responseTextLength", Some 5)].

(** A native [send] that raises a network error. *)
Definition refusing : External -> M Value := fun e =>
  match e with
  | EOldXHRSend _ _ => throw (VException "NetworkError")
  | _ => ret VUndefined
  end.

(** Request 1 classified synchronous, nothing sent yet. *)
Definition opened_sync : State := set_openSyncXHRs {[1%nat]} initial.

(** ** Invariants *)

(** [m] keeps [I]: from a state in [I] it ends, if it ends, in [I]. *)
Definition preserves {A} (I : State -> Prop) (m : M A) : Prop :=
  forall s s' o, I s -> m s = Some (s', o) -> I s'.

(** [I] looks only at the guard, the depth, the request flag and at
    whether the array exists, and holds the more easily when it does. *)
Definition framed (I : State -> Prop) : Prop :=
  forall s s',
    I s ->
    unblockingEvents s' = unblockingEvents s ->
    currentlyBlockingOnSyncXHRs s' = currentlyBlockingOnSyncXHRs s ->
    mustUnblockEventsNow s' = mustUnblockEventsNow s ->
    (currentlyBlockedEvents s' = None -> currentlyBlockedEvents s = None) ->
    I s'.

(** As long as the array is undefined the depth is 0 and no drain is
    requested. *)
Definition array_known (s : State) : Prop :=
  currentlyBlockedEvents s = None ->
  currentlyBlockingOnSyncXHRs s = 0 /\ mustUnblockEventsNow s = false.

(** The depth is not negative, and is at least 1 while a drain is
    requested and the guard is clear. *)
Definition depth_known (s : State) : Prop :=
  array_known s /\
  0 <= currentlyBlockingOnSyncXHRs s /\
  (unblockingEvents s = false -> mustUnblockEventsNow s = true ->
   1 <= currentlyBlockingOnSyncXHRs s).

(** The guard is set and the depth is at least [d]. *)
Definition guarded_above (d : Z) (s : State) : Prop :=
  array_known s /\ unblockingEvents s = true /\ d <= currentlyBlockingOnSyncXHRs s.

(** ** [findProperty]

    An object is its own properties and its prototype, if any; the
    prototype chain is finite.  A property descriptor is an object and
    so truthy.  [D] is what a descriptor holds. *)
Inductive Obj (D : Type) : Type :=
| MkObj (own : gmap string D) (proto : option (Obj D)).
Arguments MkObj {D} own proto.

Definition own_properties {D} (obj : Obj D) : gmap string D :=
  match obj with MkObj own _ => own end.

Definition prototype {D} (obj : Obj D) : option (Obj D) :=
  match obj with MkObj _ proto => proto end.

(** The [do ... while (obj)] loop; [None] is the result [undefined]. *)
Fixpoint findProperty {D} (obj : Obj D) (name : string) : option D :=
  match obj with
  | MkObj own proto =>
      match own !! name with
      | Some prop => Some prop
      | None =>
          match proto with
          | Some obj' => findProperty obj' name
          | None => None
          end
      end
  end.

(** The own properties of an object and of its prototypes, nearest
    first. *)
Fixpoint chain {D} (obj : Obj D) : list (gmap string D) :=
  match obj with
  | MkObj own proto =>
      own :: match proto with
             | Some obj' => chain obj'
             | None => []
             end
  end.

(** ** [addEventListener] and [removeEventListener]

    The two overrides use one more variable of the script,
    [registeredListeners], and the native listener lists; they touch
    nothing of [State].  A function made by [wrapHandler] is known by
    its place in [functions]. *)

Definition Value_eq_dec : forall a b : Value, {a = b} + {a <> b}.
Proof.
  fix IH 1. intros a b.
  decide equality;
    first [apply (List.list_eq_dec IH) | exact (decide (_ = _))].
Defined.

#[global] Instance Value_eq : EqDecision Value := Value_eq_dec.

(** What a WeakMap knows an object by.  A function stays the same
    object whether or not it carries [handleEvent]. *)
Inductive Key : Type :=
| KFunction (f : ObjId)
| KListener (o : ObjId)
| KXhr (x : ObjId)
| KWindow (w : ObjId)
| KOther (v : Value).

#[global] Instance Key_eq : EqDecision Key.
Proof. solve_decision. Defined.

(** The key of a value; [None] for a primitive, which a WeakMap never
    has and refuses to take. *)
Definition weak_key (v : Value) : option Key :=
  match v with
  | VUndefined | VNull | VBool _ | VNum _ | VStr _ => None
  | VFunction f _ => Some (KFunction f)
  | VListener o _ => Some (KListener o)
  | VXhr x => Some (KXhr x)
  | VWindow w => Some (KWindow w)
  | _ => Some (KOther v)
  end.

Fixpoint wm_get (k : Key) (m : list (Key * nat)) : option nat :=
  match m with
  | [] => None
  | (k', w) :: m' => if decide (k = k') then Some w else wm_get k m'
  end.

Fixpoint wm_set (k : Key) (w : nat) (m : list (Key * nat)) : list (Key * nat) :=
  match m with
  | [] => [(k, w)]
  | (k', w') :: m' =>
      if decide (k = k') then (k, w) :: m' else (k', w') :: wm_set k w m'
  end.

(** One native registration: event type, callback, capture flag. *)
Definition Listener : Type := string * nat * bool.

Record Registry := MkRegistry {
  registeredListeners : list (Key * nat);
  functions : list Wrapper;
  listeners : gmap ObjId (list Listener)
}.

Definition no_listeners : Registry := MkRegistry [] [] ∅.

Definition listeners_of (this : ObjId) (r : Registry) : list Listener :=
  default [] (listeners r !! this).

(** The capture flag the host reads off the third argument: a boolean
    is the flag, another primitive counts by its truth, an object of
    [Value] has no [capture] member. *)
Definition capture_flag (options : Value) : bool :=
  match options with
  | VBool b => b
  | VNum _ | VStr _ => truthy options
  | _ => false
  end.

(** [oldXHRAEL.call(this, type, wrappedHandler, options)]: the host adds
    the listener unless the same type, callback and capture flag are
    already registered. *)
Definition oldXHRAEL (this : ObjId) (type : string) (w : nat) (options : Value)
    (r : Registry) : Registry :=
  let l := (type, w, capture_flag options) in
  if bool_decide (l ∈ listeners_of this r) then r
  else MkRegistry (registeredListeners r) (functions r)
         (<[this := listeners_of this r ++ [l]]> (listeners r)).

(** [oldXHRREL.call(this, type, wrappedHandler, options)]. *)
Definition oldXHRREL (this : ObjId) (type : string) (w : nat) (options : Value)
    (r : Registry) : Registry :=
  let l := (type, w, capture_flag options) in
  MkRegistry (registeredListeners r) (functions r)
    (<[this := filter (fun l' => l' <> l) (listeners_of this r)]> (listeners r)).

(** The patched [addEventListener]; [type] is the event type as a
    string, an argument not passed is [VUndefined]. *)
Definition addEventListener (this : ObjId) (type : string) (handler options : Value)
    (r : Registry) : Registry * Outcome Value :=
  if negb (truthy handler) then (r, Ret VUndefined)
  else
    let known := match weak_key handler with
                 | Some k => wm_get k (registeredListeners r)
                 | None => None
                 end in
    let '(wrappedHandler, r1) :=
      match known with
      | Some w => (w, r)
      | None =>
          (length (functions r),
           MkRegistry (registeredListeners r)
             (functions r ++ [wrapHandler handler type]) (listeners r))
      end in
    let r2 := oldXHRAEL this type wrappedHandler options r1 in
    match weak_key handler with
    | Some k =>
        (MkRegistry (wm_set k wrappedHandler (registeredListeners r2))
           (functions r2) (listeners r2),
         Ret VUndefined)
    | None => (r2, Exc VTypeError)
    end.

(** The patched [removeEventListener].  The native lists hold wrappers
    only, so the native removal of a handler the script does not know
    finds nothing to remove. *)
Definition removeEventListener (this : ObjId) (type : string)
    (handler options : Value) (r : Registry) : Registry :=
  let known := match weak_key handler with
               | Some k => wm_get k (registeredListeners r)
               | None => None
               end in
  match truthy handler, known with
  | true, Some wrappedHandler => oldXHRREL this type wrappedHandler options r
  | _, _ => r
  end.

(** A handler function, and a handler that is a string. *)
Definition handler10 : Value := VFunction 10%nat None.
Definition primitive_handler : Value := VStr "handler".

(** * Properties *)

(** ** The state accessors *)

Lemma oldXHRRS_run this s :
  oldXHRRS this s = Some (s, Ret (hx_readyState (host_xhr this s))).
Proof. reflexivity. Qed.

Lemma get_readyState_no_entry this s :
  XHRStateSpoofs s !! this = None ->
  get_readyState this s = Some (s, Ret (hx_readyState (host_xhr this s))).
Proof. intros H. unfold get_readyState, bind, gets. rewrite H. reflexivity. Qed.

Lemma get_readyState_entry this s spoofs :
  XHRStateSpoofs s !! this = Some spoofs ->
  get_readyState this s =
    Some (s, Ret (match spoof_prop "readyState" spoofs with
                  | Some n => if n =? 0 then hx_readyState (host_xhr this s) else n
                  | None => hx_readyState (host_xhr this s)
                  end)).
Proof.
  intros H. unfold get_readyState, bind, gets. rewrite H.
  destruct (spoof_prop "readyState" spoofs) as [n|]; [|reflexivity].
  destruct (n =? 0); reflexivity.
Qed.

(** A captured stage other than 0 is what the getter returns. *)
Lemma get_readyState_captured this s spoofs n :
  XHRStateSpoofs s !! this = Some spoofs ->
  spoof_prop "readyState" spoofs = Some n ->
  n <> 0 ->
  get_readyState this s = Some (s, Ret n).
Proof.
  intros H Hn Hz. rewrite (get_readyState_entry _ _ _ H), Hn.
  destruct (Z.eqb_spec n 0); [contradiction | reflexivity].
Qed.

(** The partial-response getter with a captured length. *)
Lemma get_responseText_captured this s spoofs n :
  text_shaped (hx_responseType (host_xhr this s)) = true ->
  XHRStateSpoofs s !! this = Some spoofs ->
  spoof_prop "responseTextLength" spoofs = Some n ->
  get_responseText this s =
    Some (s, Ret (if n =? str_length (hx_responseText (host_xhr this s))
                  then hx_responseText (host_xhr this s)
                  else substr0 (hx_responseText (host_xhr this s)) n)).
Proof.
  intros Ht H Hn. unfold get_responseText, oldXHRRT, bind, gets. simpl.
  rewrite Ht. unfold ret. rewrite H, Hn.
  destruct (n =? _); reflexivity.
Qed.

(** Without a capture both getters are the native ones. *)
Lemma getters_live this s :
  XHRStateSpoofs s !! this = None ->
  get_readyState this s = oldXHRRS this s /\
  get_responseText this s = oldXHRRT this s.
Proof.
  intros H. split; [apply get_readyState_no_entry, H|].
  unfold get_responseText, oldXHRRT, bind, gets. simpl.
  destruct (text_shaped _); [|reflexivity].
  unfold ret. rewrite H. reflexivity.
Qed.


(** C4.  With the capture {stage 0, length 0} installed on a request
    whose live stage is 4, the partial-response getter gives the
    captured prefix, and the completion-stage getter gives the live 4,
    not the captured 0.  So it goes in a page: a load of request 2
    blocked at stage 0 and replayed once the request is done shows its
    handler stage 4 and the empty response. *)
Theorem readyState_capture_of_stage0_is_ignored :
  (exists s,
     done_with_stage0_capture = Some (s, Ret tt) /\
     get_responseText 2%nat s = Some (s, Ret EmptyString) /\
     get_readyState 2%nat s = Some (s, Ret 4)) /\
  calls 10%nat (trace Scenario.after_blocked_at_stage0)
    = [(VUndefined, [Scenario.load_event])] /\
  posts (trace Scenario.after_blocked_at_stage0) = [[VNum 4; VStr EmptyString]].
Proof.
  split; [|vm_compute; split; reflexivity].
  eexists. split; [reflexivity|]. split; reflexivity.
Qed.

(** ** Classification at [open] *)

Lemma open_run ext this arguments s :
  open ext this arguments s =
    ext (EOldXHROpen this arguments)
      (if marks_sync arguments
       then set_openSyncXHRs ({[this]} ∪ openSyncXHRs s) s else s).
Proof. unfold open, bind. destruct (marks_sync arguments); reflexivity. Qed.

(** C9, as the code has it.  For a request not classified synchronous
    so far, [open] hands the call on to the native [open] unchanged, in
    a state where the request is classified synchronous exactly when a
    third argument was passed and is falsy: [false], but also an
    explicit [undefined], [null], [0] or the empty string.  With fewer
    than three arguments the request stays asynchronous. *)
Theorem open_classifies_by_falsy_third_argument ext this arguments s :
  this ∉ openSyncXHRs s ->
  exists s0,
    open ext this arguments s = ext (EOldXHROpen this arguments) s0 /\
    (this ∈ openSyncXHRs s0 <->
       (2 < length arguments)%nat /\
       truthy (default VUndefined (arguments !! 2%nat)) = false) /\
    ((length arguments <= 2)%nat -> s0 = s).
Proof.
  intros Hfresh. rewrite open_run. eexists. split; [reflexivity|].
  unfold marks_sync.
  destruct (Nat.ltb_spec 2 (length arguments)) as [Hlen|Hlen]; simpl.
  - destruct (truthy _) eqn:Htr; simpl.
    + split; [|lia]. split; [contradiction|]. intros [_ H]. discriminate.
    + split; [|lia]. split; [auto|]. intros _. set_solver.
  - split; [|reflexivity]. split; [contradiction|]. lia.
Qed.

Lemma open_classifies_by_falsy_third_argument_witness :
  (1%nat ∉ openSyncXHRs initial) /\
  exists s0,
    open idle 1%nat (GET ++ [VBool false]) initial
      = idle (EOldXHROpen 1%nat (GET ++ [VBool false])) s0 /\
    (1%nat ∈ openSyncXHRs s0 <->
       (2 < length (GET ++ [VBool false]))%nat /\
       truthy (default VUndefined ((GET ++ [VBool false]) !! 2%nat)) = false) /\
    ((length (GET ++ [VBool false]) <= 2)%nat -> s0 = initial).
Proof.
  assert (H : 1%nat ∉ openSyncXHRs initial) by (simpl; set_solver).
  split; [exact H|].
  exact (open_classifies_by_falsy_third_argument idle 1%nat
           (GET ++ [VBool false]) initial H).
Defined.

(** C9, where the specification differs.  [open("GET", "/", undefined)] passes an
    undefined third argument, and the request is classified
    synchronous. *)
Lemma open_with_undefined_third_argument_is_sync :
  exists s,
    open idle 1%nat (GET ++ [VUndefined]) initial = Some (s, Ret VUndefined) /\
    (GET ++ [VUndefined]) !! 2%nat = Some VUndefined /\
    1%nat ∈ openSyncXHRs s.
Proof.
  eexists. split; [reflexivity|]. split; [reflexivity|]. simpl. set_solver.
Qed.

(** Once classified synchronous a request stays so: no later [open]
    takes it out of [openSyncXHRs], whatever its arguments. *)
Lemma open_never_unclassifies ext this arguments s :
  this ∈ openSyncXHRs s ->
  exists s0,
    open ext this arguments s = ext (EOldXHROpen this arguments) s0 /\
    this ∈ openSyncXHRs s0.
Proof.
  intros H. rewrite open_run. eexists. split; [reflexivity|].
  destruct (marks_sync arguments); simpl; set_solver.
Qed.

(** ** What [send] hands to the native [send] *)

Lemma is_sync_run this s :
  is_sync this s = Some (s, Ret (bool_decide (this ∈ openSyncXHRs s))).
Proof. reflexivity. Qed.

(** For an asynchronous request the native [send] receives one
    argument, the [arguments] object itself. *)
Lemma send_async_run ext fuel this arguments s :
  this ∉ openSyncXHRs s ->
  send ext fuel this arguments s =
    (ext (EOldXHRSend this [VArguments arguments]) ;; ret VUndefined) s.
Proof.
  intros H. unfold send at 1. unfold bind at 1. rewrite is_sync_run.
  rewrite bool_decide_eq_false_2 by exact H. reflexivity.
Qed.

(** For a synchronous request with no drain pending the native [send]
    receives no argument at all, and runs one level deeper with a new
    empty array. *)
Lemma send_sync_run ext fuel this arguments s :
  this ∈ openSyncXHRs s ->
  mustUnblockEventsNow s = false ->
  send ext fuel this arguments s =
    (let* caught := try_catch (ext (EOldXHRSend this [])) in
     let* depth := gets currentlyBlockingOnSyncXHRs in
     (if depth =? 1 then
        modify (set_mustUnblockEventsNow true) ;;
        schedule MUnblockEventsIfNecessary
      else ret tt) ;;
     match caught with
     | Exc caughtException =>
         if truthy caughtException then throw caughtException
         else ret VUndefined
     | Ret _ => ret VUndefined
     end)
      (set_currentlyBlockedEvents (Some [])
         (set_currentlyBlockingOnSyncXHRs (currentlyBlockingOnSyncXHRs s + 1) s)).
Proof.
  intros H Hm. unfold send at 1. unfold bind at 1. rewrite is_sync_run.
  rewrite bool_decide_eq_true_2 by exact H.
  unfold unblockEventsIfNecessary, bind, gets, modify, ret. rewrite Hm.
  reflexivity.
Qed.

(** ** Admission of a signal *)

Lemma get_readyState_total this s :
  exists n, get_readyState this s = Some (s, Ret n).
Proof.
  destruct (XHRStateSpoofs s !! this) as [spoofs|] eqn:H.
  - eexists. apply (get_readyState_entry _ _ _ H).
  - eexists. apply (get_readyState_no_entry _ _ H).
Qed.

Lemma get_responseText_text this s :
  text_shaped (hx_responseType (host_xhr this s)) = true ->
  exists t, get_responseText this s = Some (s, Ret t).
Proof.
  intros Ht. unfold get_responseText, oldXHRRT, bind, gets. simpl.
  rewrite Ht. unfold ret.
  destruct (XHRStateSpoofs s !! this) as [spoofs|]; [|eauto].
  destruct (spoof_prop _ spoofs) as [n|]; [|eauto].
  destruct (n =? _); eauto.
Qed.

(** Building the capture reads the request and changes nothing. *)
Lemma capture_total this args readyState s :
  exists spoofs, capture this args readyState s = Some (s, Ret spoofs).
Proof.
  unfold capture, bind, gets. simpl.
  destruct (text_shaped _) eqn:Ht; [|eauto].
  destruct (readyState <? 3); [eauto|].
  assert (Hlen : exists spoofs,
    (let* text := get_responseText this in
     ret [("readyState", Some readyState);
          ("responseTextLength", Some (str_length text))]) s
    = Some (s, Ret spoofs)).
  { destruct (get_responseText_text _ _ Ht) as [t Hrt].
    unfold bind. rewrite Hrt. eauto. }
  destruct (args !! 0%nat) as [[]|]; try exact Hlen.
  destruct (String.eqb _ _); [eauto | exact Hlen].
Qed.

(** The wrapper of a request classified synchronous is its immediate
    branch: it reads the request, changes nothing and pushes nothing. *)
Lemma call_wrapper_of_sync_request ext w this args s :
  this ∈ openSyncXHRs s ->
  call_wrapper ext w this args s = run_now ext (w_handler w) (VXhr this) args s.
Proof.
  intros H. unfold call_wrapper.
  destruct (get_readyState_total this s) as [n Hn].
  destruct (capture_total this args n s) as [spoofs Hc].
  unfold bind at 1. rewrite Hn.
  unfold bind at 1. rewrite Hc.
  unfold bind at 1. rewrite is_sync_run.
  rewrite bool_decide_eq_true_2 by exact H.
  reflexivity.
Qed.

(** The calls the immediate branch makes, by the kind of handler. *)
Lemma run_now_calls ext handler this args s :
  match handler with
  | VFunction f None =>
      run_now ext handler this args s = ext (ECall f this args) s
  | VFunction _ (Some m) | VListener _ m =>
      run_now ext handler this args s = ext (ECall m handler [VArguments args]) s
  | _ => run_now ext handler this args s = Some (s, Exc VTypeError)
  end.
Proof. destruct handler as [| | | | |f [m|]| | | | | | | |]; reflexivity. Qed.

(** C5.  A signal of a request classified synchronous is admitted at
    once whatever the depth, and the wrapper, in the state it was
    called in and with nothing pushed, calls the original handler: a
    plain function is called with the request as [this] and the
    arguments of the signal; a handler carrying [handleEvent] has that
    method called, with the handler as [this].  What the wrapper does is
    then what that call does.  A handler that is neither fails with a
    TypeError and nothing is queued. *)
Theorem sync_signal_runs_now ext w this args s :
  this ∈ openSyncXHRs s ->
  (forall blocking, admission true blocking = RunNow) /\
  match w_handler w with
  | VFunction f None =>
      call_wrapper ext w this args s = ext (ECall f (VXhr this) args) s
  | VFunction _ (Some m) | VListener _ m =>
      call_wrapper ext w this args s
        = ext (ECall m (w_handler w) [VArguments args]) s
  | _ => call_wrapper ext w this args s = Some (s, Exc VTypeError)
  end.
Proof.
  intros H. split; [reflexivity|].
  rewrite (call_wrapper_of_sync_request ext w this args s H).
  apply run_now_calls.
Qed.

(** At depth 3, in a page: the readystatechange handler of the
    synchronous request 1, function 10, is called once, with the request
    and the event, and the array stays empty. *)
Lemma sync_signal_runs_now_witness :
  1%nat ∈ openSyncXHRs three_deep /\
  currentlyBlockingOnSyncXHRs three_deep = 3 /\
  call_wrapper (Script.external Scenario.env_windows 3)
    (MkWrapper (VFunction 10%nat None) "onreadystatechange")
    1%nat [Scenario.readystatechange_event] three_deep
  = Script.external Scenario.env_windows 3
      (ECall 10%nat (VXhr 1%nat) [Scenario.readystatechange_event]) three_deep /\
  (let s := final (call_wrapper (Script.external Scenario.env_windows 3)
                     (MkWrapper (VFunction 10%nat None) "onreadystatechange")
                     1%nat [Scenario.readystatechange_event] three_deep) in
   calls 10%nat (trace s) = [(VXhr 1%nat, [Scenario.readystatechange_event])] /\
   currentlyBlockedEvents s = Some []).
Proof.
  assert (H : 1%nat ∈ openSyncXHRs three_deep) by (simpl; set_solver).
  split; [exact H|]. split; [reflexivity|].
  split; [|vm_compute; split; reflexivity].
  exact (proj2 (sync_signal_runs_now (Script.external Scenario.env_windows 3)
                  (MkWrapper (VFunction 10%nat None) "onreadystatechange")
                  1%nat [Scenario.readystatechange_event] three_deep H)).
Defined.

(** ** The drain *)

Lemma drain_empty ext fuel s :
  currentlyBlockedEvents s = Some [] ->
  drain ext (S fuel) s = Some (s, Ret []).
Proof. intros H. simpl. unfold bind, gets. rewrite H. reflexivity. Qed.

Lemma drain_shift ext fuel s evt rest :
  currentlyBlockedEvents s = Some (evt :: rest) ->
  drain ext (S fuel) s =
    match call_closure ext evt (set_currentlyBlockedEvents (Some rest) s) with
    | Some (s1, Ret _) =>
        match drain ext fuel s1 with
        | Some (s2, Ret called) => Some (s2, Ret (evt :: called))
        | Some (s2, Exc e) => Some (s2, Exc e)
        | None => None
        end
    | Some (s1, Exc e) => Some (s1, Exc e)
    | None => None
    end.
Proof.
  intros H. simpl. unfold bind at 1. unfold gets. rewrite H.
  unfold bind at 1. unfold modify at 1. unfold bind at 1.
  destruct (call_closure ext evt _) as [[s1 [v|e]]|]; reflexivity.
Qed.

Lemma unblock_not_requested ext fuel s :
  mustUnblockEventsNow s = false ->
  unblockEventsIfNecessary ext fuel s = Some (s, Ret []).
Proof.
  intros H. unfold unblockEventsIfNecessary, bind, gets. rewrite H. reflexivity.
Qed.

(** With the guard set, a requested drain clears the request and calls
    nothing: the array, the depth and the guard stay as they are. *)
Lemma unblock_guarded ext fuel s :
  mustUnblockEventsNow s = true ->
  unblockingEvents s = true ->
  unblockEventsIfNecessary ext fuel s =
    Some (set_mustUnblockEventsNow false s, Ret []).
Proof.
  intros Hm Hg. unfold unblockEventsIfNecessary, bind, gets, modify.
  rewrite Hm. simpl. rewrite Hg. reflexivity.
Qed.

Lemma unblock_run ext fuel s :
  mustUnblockEventsNow s = true ->
  unblockingEvents s = false ->
  unblockEventsIfNecessary ext fuel s =
    match drain ext fuel
            (set_unblockingEvents true (set_mustUnblockEventsNow false s)) with
    | Some (s1, Ret called) =>
        Some (set_currentlyBlockingOnSyncXHRs (currentlyBlockingOnSyncXHRs s1 - 1)
                (set_unblockingEvents true s1), Ret called)
    | Some (s1, Exc e) => Some (s1, Exc e)
    | None => None
    end.
Proof.
  intros Hm Hg. unfold unblockEventsIfNecessary, bind, gets, modify, ret.
  rewrite Hm. cbn [unblockingEvents set_mustUnblockEventsNow]. rewrite Hg.
  cbn [negb].
  destruct (drain ext fuel _) as [[s1 [called|e]]|]; reflexivity.
Qed.

(** Whatever a guarded call of [unblockEventsIfNecessary] is asked, it
    calls none of the queued functions. *)
Lemma guarded_unblock_calls_nothing ext fuel s :
  unblockingEvents s = true ->
  exists s',
    unblockEventsIfNecessary ext fuel s = Some (s', Ret []) /\
    currentlyBlockedEvents s' = currentlyBlockedEvents s /\
    currentlyBlockingOnSyncXHRs s' = currentlyBlockingOnSyncXHRs s /\
    unblockingEvents s' = true.
Proof.
  intros Hg. destruct (mustUnblockEventsNow s) eqn:Hm.
  - rewrite (unblock_guarded _ _ _ Hm Hg). eexists. split; [reflexivity|].
    simpl. auto.
  - rewrite (unblock_not_requested _ _ _ Hm). eauto.
Qed.

Section Fifo.

Variable ext : External -> M Value.

(** The queued functions considered: called with the array defined,
    each returns, and leaves in the array what it found there, with
    what it pushed after it. *)
Variable ok : Closure -> Prop.
Hypothesis ok_pushes_only : forall evt s q,
  ok evt ->
  currentlyBlockedEvents s = Some q ->
  exists s' v new,
    call_closure ext evt s = Some (s', Ret v) /\
    currentlyBlockedEvents s' = Some (q ++ new) /\
    Forall ok new.

Lemma drain_fifo fuel : forall s q s' o,
  Forall ok q ->
  currentlyBlockedEvents s = Some q ->
  drain ext fuel s = Some (s', o) ->
  exists appended,
    o = Ret (q ++ appended) /\
    currentlyBlockedEvents s' = Some [] /\
    Forall ok appended.
Proof.
  induction fuel as [|fuel IH]; intros s q s' o Hok Hq Hrun; [discriminate|].
  destruct q as [|evt rest].
  - rewrite (drain_empty _ _ _ Hq) in Hrun. inversion Hrun; subst.
    exists []. auto.
  - rewrite (drain_shift _ _ _ _ _ Hq) in Hrun.
    inversion Hok as [|? ? Hevt Hrest]; subst.
    destruct (ok_pushes_only evt (set_currentlyBlockedEvents (Some rest) s) rest
                Hevt eq_refl) as (s1 & v & new & Hcall & Hq1 & Hnew).
    rewrite Hcall in Hrun.
    destruct (drain ext fuel s1) as [[s2 o2]|] eqn:Hrest'; [|discriminate].
    assert (Hok1 : Forall ok (rest ++ new)) by (apply Forall_app; auto).
    destruct (IH s1 (rest ++ new) s2 o2 Hok1 Hq1 Hrest')
      as (appended & -> & Hq2 & Happ).
    inversion Hrun; subst.
    exists (new ++ appended). rewrite <- app_assoc. simpl.
    repeat split; auto. apply Forall_app; auto.
Qed.

(** Functions that push nothing are drained within one more step of
    fuel than there are of them. *)
Lemma drain_enough_fuel : forall q s,
  (forall evt s q, ok evt -> currentlyBlockedEvents s = Some q ->
     exists s' v, call_closure ext evt s = Some (s', Ret v) /\
                  currentlyBlockedEvents s' = Some q) ->
  Forall ok q ->
  currentlyBlockedEvents s = Some q ->
  exists s', drain ext (S (length q)) s = Some (s', Ret q).
Proof.
  intros q s Hquiet. revert s.
  induction q as [|evt rest IH]; intros s Hok Hq.
  - rewrite (drain_empty _ _ _ Hq). eauto.
  - rewrite (drain_shift _ _ _ _ _ Hq).
    inversion Hok as [|? ? Hevt Hrest]; subst.
    destruct (Hquiet evt (set_currentlyBlockedEvents (Some rest) s) rest
                Hevt eq_refl) as (s1 & v & Hcall & Hq1).
    rewrite Hcall. destruct (IH s1 Hrest Hq1) as [s2 Hs2].
    simpl length. rewrite Hs2. eauto.
Qed.

End Fifo.

(** ** The guard is never cleared

    [unblockingEvents] is assigned in two places, both times [true].
    Once set, it stays set through every patched function, and so
    through every program. *)

Lemma keeps_ret {A} (a : A) : keeps_guard (ret a).
Proof. intros s s' o Hg H. inversion H; subst. exact Hg. Qed.

Lemma keeps_throw {A} e : keeps_guard (@throw A e).
Proof. intros s s' o Hg H. inversion H; subst. exact Hg. Qed.

Lemma keeps_gets {A} (f : State -> A) : keeps_guard (gets f).
Proof. intros s s' o Hg H. inversion H; subst. exact Hg. Qed.

Lemma keeps_modify f :
  (forall s, guarded s -> guarded (f s)) -> keeps_guard (modify f).
Proof. intros Hf s s' o Hg H. inversion H; subst. auto. Qed.

Lemma keeps_bind {A B} (m : M A) (k : A -> M B) :
  keeps_guard m -> (forall a, keeps_guard (k a)) -> keeps_guard (bind m k).
Proof.
  intros Hm Hk s s' o Hg H. unfold bind in H.
  destruct (m s) as [[s1 [a|e]]|] eqn:E; [| |discriminate].
  - eapply Hk; [|exact H]. eapply Hm; eauto.
  - inversion H; subst. eapply Hm; eauto.
Qed.

Lemma keeps_try_catch {A} (m : M A) :
  keeps_guard m -> keeps_guard (try_catch m).
Proof.
  intros Hm s s' o Hg H. unfold try_catch in H.
  destruct (m s) as [[s1 o1]|] eqn:E; [|discriminate].
  inversion H; subst. eapply Hm; eauto.
Qed.

Lemma keeps_out_of_fuel {A} : keeps_guard (fun _ : State => @None (State * Outcome A)).
Proof. intros s s' o _ H. discriminate. Qed.

Create HintDb keeps.
#[local] Hint Resolve keeps_ret keeps_throw keeps_gets keeps_try_catch
  keeps_out_of_fuel : keeps.

Ltac keeps_step :=
  match goal with
  | |- keeps_guard (bind _ _) => apply keeps_bind; [|intros ?]
  | |- keeps_guard (modify _) =>
      apply keeps_modify; unfold guarded; intros ? ?; simpl; auto
  | |- keeps_guard (match ?x with _ => _ end) => destruct x
  | |- keeps_guard (let _ := _ in _) => cbv zeta
  | |- keeps_guard _ => solve [eauto with keeps]
  end.
Ltac keeps := repeat keeps_step.

Lemma keeps_oldXHRRT this : keeps_guard (oldXHRRT this).
Proof. unfold oldXHRRT. keeps. Qed.

Lemma keeps_nativeSet name this w : keeps_guard (nativeSet name this w).
Proof. unfold nativeSet. keeps. Qed.

Lemma keeps_schedule t : keeps_guard (schedule t).
Proof. unfold schedule. keeps. Qed.

Lemma keeps_spoofXHRState xhr values : keeps_guard (spoofXHRState xhr values).
Proof. unfold spoofXHRState. keeps. Qed.

Lemma keeps_get_readyState this : keeps_guard (get_readyState this).
Proof. unfold get_readyState, oldXHRRS. keeps. Qed.

#[local] Hint Resolve keeps_oldXHRRT keeps_nativeSet keeps_schedule
  keeps_spoofXHRState keeps_get_readyState : keeps.

Lemma keeps_get_responseText this : keeps_guard (get_responseText this).
Proof. unfold get_responseText. keeps. Qed.

Lemma keeps_set_on evt this handler : keeps_guard (set_on evt this handler).
Proof. unfold set_on. keeps. Qed.

Lemma keeps_get_on evt this : keeps_guard (get_on evt this).
Proof. unfold get_on. keeps. Qed.

Lemma keeps_push f : keeps_guard (push f).
Proof. unfold push. keeps. Qed.

Lemma keeps_get_handleEvent handler : keeps_guard (get_handleEvent handler).
Proof. unfold get_handleEvent. keeps. Qed.

Lemma keeps_is_sync this : keeps_guard (is_sync this).
Proof. unfold is_sync. keeps. Qed.

Lemma keeps_blocking : keeps_guard blocking.
Proof. unfold blocking. keeps. Qed.

#[local] Hint Resolve keeps_get_responseText keeps_set_on keeps_get_on
  keeps_push keeps_get_handleEvent keeps_is_sync keeps_blocking : keeps.

Lemma keeps_capture this args readyState :
  keeps_guard (capture this args readyState).
Proof. unfold capture. keeps. Qed.

Lemma keeps_postMessage this arguments : keeps_guard (postMessage this arguments).
Proof. unfold postMessage. keeps. Qed.

#[local] Hint Resolve keeps_capture keeps_postMessage : keeps.

Section KeepsGuard.

Variable ext : External -> M Value.
Hypothesis keeps_ext : forall e, keeps_guard (ext e).

Lemma keeps_run_now handler this args :
  keeps_guard (run_now ext handler this args).
Proof.
  pose proof keeps_ext.
  unfold run_now, call_handleEvent, apply_handler. keeps.
Qed.

Lemma keeps_open this arguments : keeps_guard (open ext this arguments).
Proof. pose proof keeps_ext. unfold open. keeps. Qed.

Lemma keeps_call_closure evt : keeps_guard (call_closure ext evt).
Proof.
  pose proof keeps_ext.
  unfold call_closure, call_handleEvent, apply_handler. keeps.
Qed.

Lemma keeps_drain fuel : keeps_guard (drain ext fuel).
Proof.
  pose proof keeps_call_closure.
  induction fuel as [|fuel IH]; simpl; keeps.
Qed.

Lemma keeps_unblockEventsIfNecessary fuel :
  keeps_guard (unblockEventsIfNecessary ext fuel).
Proof.
  pose proof keeps_drain. unfold unblockEventsIfNecessary. keeps.
Qed.

Lemma keeps_send fuel this arguments :
  keeps_guard (send ext fuel this arguments).
Proof.
  pose proof keeps_ext. pose proof keeps_unblockEventsIfNecessary.
  unfold send. keeps.
Qed.

Lemma keeps_postMessage_tick wnd args :
  keeps_guard (postMessage_tick ext wnd args).
Proof. pose proof keeps_ext. unfold postMessage_tick. keeps. Qed.

Lemma keeps_call_wrapper w this args :
  keeps_guard (call_wrapper ext w this args).
Proof. pose proof keeps_run_now. unfold call_wrapper. keeps. Qed.

Lemma keeps_run_microtask fuel t : keeps_guard (run_microtask ext fuel t).
Proof.
  pose proof keeps_unblockEventsIfNecessary. pose proof keeps_postMessage_tick.
  unfold run_microtask. keeps.
Qed.

Lemma keeps_fire evt x event : keeps_guard (Script.fire ext evt x event).
Proof. pose proof keeps_call_wrapper. unfold Script.fire. keeps. Qed.

Lemma keeps_tick fuel : keeps_guard (Script.tick ext fuel).
Proof.
  pose proof keeps_run_microtask.
  induction fuel as [|fuel IH]; simpl; keeps.
Qed.

Lemma keeps_step fuel st : keeps_guard (Script.step ext fuel st).
Proof.
  pose proof keeps_open. pose proof keeps_send. pose proof keeps_fire.
  pose proof keeps_tick.
  unfold Script.step, Script.set_native. keeps.
Qed.

End KeepsGuard.

Lemma keeps_exec env fuel : forall c, keeps_guard (Script.exec env fuel c).
Proof.
  induction fuel as [|fuel IH]; intros c; simpl; [apply keeps_out_of_fuel|].
  assert (Hext : forall e,
            keeps_guard (Script.log e ;; Script.exec env fuel (Script.code_of env e))).
  { intros e. unfold Script.log. keeps. }
  pose proof (keeps_step _ Hext fuel).
  destruct c; keeps.
Qed.

Lemma keeps_external env fuel e : keeps_guard (Script.external env fuel e).
Proof.
  pose proof (keeps_exec env fuel). unfold Script.external, Script.log. keeps.
Qed.

(** ** First in, first out *)

Lemma bind_run {A B} (m : M A) (k : A -> M B) s s1 a :
  m s = Some (s1, Ret a) -> bind m k s = k a s1.
Proof. unfold bind. intros ->. reflexivity. Qed.

(** The list the loop returns.  Take queued functions that return when
    called and leave in the array what was there, adding at most pushes
    at its end.  A requested, unguarded drain of the array [q] that
    finishes returns [q] followed by what was pushed during the pass,
    and leaves the array empty; when the functions push nothing it does
    finish, within one more step of fuel than the length of [q]. *)
Lemma drain_returns_in_push_order ext (ok : Closure -> Prop) s q :
  (forall evt s0 q0,
     ok evt ->
     currentlyBlockedEvents s0 = Some q0 ->
     exists s1 v new,
       call_closure ext evt s0 = Some (s1, Ret v) /\
       currentlyBlockedEvents s1 = Some (q0 ++ new) /\
       Forall ok new) ->
  mustUnblockEventsNow s = true ->
  unblockingEvents s = false ->
  currentlyBlockedEvents s = Some q ->
  Forall ok q ->
  (forall fuel s' o,
     unblockEventsIfNecessary ext fuel s = Some (s', o) ->
     exists appended,
       o = Ret (q ++ appended) /\
       Forall ok appended /\
       currentlyBlockedEvents s' = Some []) /\
  ((forall evt s0 q0,
      ok evt ->
      currentlyBlockedEvents s0 = Some q0 ->
      exists s1 v,
        call_closure ext evt s0 = Some (s1, Ret v) /\
        currentlyBlockedEvents s1 = Some q0) ->
   exists s',
     unblockEventsIfNecessary ext (S (length q)) s = Some (s', Ret q) /\
     currentlyBlockedEvents s' = Some []).
Proof.
  intros Hok Hm Hg Hq Hall. split.
  - intros fuel s' o Hrun.
    rewrite (unblock_run _ _ _ Hm Hg) in Hrun.
    destruct (drain ext fuel _) as [[s1 o1]|] eqn:Hd; [|discriminate].
    destruct (drain_fifo ext ok Hok fuel
                (set_unblockingEvents true (set_mustUnblockEventsNow false s))
                q s1 o1 Hall Hq Hd)
      as (appended & -> & Hq1 & Happ).
    inversion Hrun; subst. exists appended. auto.
  - intros Hquiet.
    destruct (drain_enough_fuel ext ok q
                (set_unblockingEvents true (set_mustUnblockEventsNow false s))
                Hquiet Hall Hq) as [s1 Hd].
    rewrite (unblock_run _ _ _ Hm Hg), Hd.
    eexists. split; [reflexivity|].
    destruct (drain_fifo ext ok Hok (S (length q))
                (set_unblockingEvents true (set_mustUnblockEventsNow false s))
                q s1 (Ret q) Hall Hq Hd)
      as (appended & _ & Hq1 & _).
    exact Hq1.
Qed.

Lemma call_wrapper_idle_pushes_only g type this args s q :
  currentlyBlockedEvents s = Some q ->
  exists s' v new,
    call_wrapper idle (MkWrapper (VFunction g None) type) this args s
      = Some (s', Ret v) /\
    currentlyBlockedEvents s' = Some (q ++ new) /\
    Forall plain new.
Proof.
  intros Hq. unfold call_wrapper.
  destruct (get_readyState_total this s) as [n Hn].
  destruct (capture_total this args n s) as [spoofs Hc].
  rewrite (bind_run _ _ _ _ _ Hn), (bind_run _ _ _ _ _ Hc).
  rewrite (bind_run _ _ _ _ _ (is_sync_run this s)).
  unfold blocking. unfold bind at 1. unfold gets at 1.
  destruct (admission _ _).
  - exists s, VUndefined, []. rewrite app_nil_r. auto.
  - unfold push, bind, gets, modify, ret. rewrite Hq.
    eexists _, VUndefined, [_]. split; [reflexivity|].
    split; [reflexivity|]. repeat constructor.
Qed.

Lemma plain_pushes_only_when_dispatching evt s q :
  plain evt ->
  currentlyBlockedEvents s = Some q ->
  exists s' v new,
    call_closure dispatching evt s = Some (s', Ret v) /\
    currentlyBlockedEvents s' = Some (q ++ new) /\
    Forall plain new.
Proof.
  intros Hplain Hq. destruct evt as [xhr spoofs handler args d|wnd args].
  - destruct handler as [| | | | |f [m|]| | | | | | | |]; try contradiction.
    unfold call_closure, apply_handler, dispatching.
    unfold bind at 1. unfold spoofXHRState at 1, modify at 1.
    unfold bind at 1. unfold get_handleEvent, ret at 1.
    unfold bind at 1. unfold ret at 1.
    destruct (f =? 7)%nat.
    + edestruct (call_wrapper_idle_pushes_only 8%nat "onload" 3%nat
                   [VEvent "load" None]) as (s1 & v & new & Hrun & Hq1 & Hnew);
        [|rewrite (bind_run _ _ _ _ _ Hrun)].
      { simpl. exact Hq. }
      eexists _, v, new. split; [reflexivity|]. split; [exact Hq1|exact Hnew].
    + eexists _, VUndefined, []. split; [reflexivity|].
      rewrite app_nil_r. split; [exact Hq | constructor].
  - exists s, VUndefined, []. rewrite app_nil_r. auto.
Qed.

Lemma drain_returns_in_push_order_witness :
  mustUnblockEventsNow two_blocked = true /\
  unblockingEvents two_blocked = false /\
  currentlyBlockedEvents two_blocked = Some [blocked7; blocked9] /\
  exists s',
    unblockEventsIfNecessary dispatching 4 two_blocked
      = Some (s', Ret [blocked7; blocked9; pushed8]) /\
    exists appended,
      @Ret (list Closure) [blocked7; blocked9; pushed8]
        = Ret ([blocked7; blocked9] ++ appended) /\
      Forall plain appended /\
      currentlyBlockedEvents s' = Some [].
Proof.
  split; [reflexivity|]. split; [reflexivity|]. split; [reflexivity|].
  destruct (unblockEventsIfNecessary dispatching 4 two_blocked)
    as [[s' o]|] eqn:E; [|vm_compute in E; discriminate].
  assert (Ho : o = Ret [blocked7; blocked9; pushed8]).
  { vm_compute in E. injection E as _ <-. reflexivity. }
  subst o. exists s'. split; [reflexivity|].
  assert (Hall : Forall plain [blocked7; blocked9]) by (repeat constructor).
  exact (proj1 (drain_returns_in_push_order dispatching plain two_blocked
                  [blocked7; blocked9] plain_pushes_only_when_dispatching
                  eq_refl eq_refl eq_refl Hall)
           4%nat s' (Ret [blocked7; blocked9; pushed8]) E).
Defined.

(** ** One drain, and no more *)

(** A drain that runs to its end leaves the guard set: the assignment
    after the loop writes [true] again, and the depth goes down by one. *)
Lemma drain_leaves_guard_set ext fuel s s' called :
  mustUnblockEventsNow s = true ->
  unblockingEvents s = false ->
  unblockEventsIfNecessary ext fuel s = Some (s', Ret called) ->
  unblockingEvents s' = true /\
  exists s1,
    drain ext fuel (set_unblockingEvents true (set_mustUnblockEventsNow false s))
      = Some (s1, Ret called) /\
    currentlyBlockingOnSyncXHRs s' = currentlyBlockingOnSyncXHRs s1 - 1.
Proof.
  intros Hm Hg Hrun. rewrite (unblock_run _ _ _ Hm Hg) in Hrun.
  destruct (drain ext fuel _) as [[s1 [c|e]]|]; try discriminate.
  inversion Hrun; subst. split; [reflexivity|]. eauto.
Qed.

(** C2.  Two rounds of blocking, each with a load of request 2 blocked
    and the scheduled drain run after the synchronous call.  The first
    round calls the handler (function 10) once and leaves depth 0, but
    the guard set.  In the second round the drain turn clears the
    request and calls nothing: the handler has still been called only
    once, its second signal sits in the array, no function is scheduled
    any more, and the depth stays 1. *)
Theorem second_round_is_never_drained :
  calls 10%nat (trace Scenario.after_one_round)
    = [(VUndefined, [Scenario.load_event])] /\
  currentlyBlockingOnSyncXHRs Scenario.after_one_round = 0 /\
  unblockingEvents Scenario.after_one_round = true /\
  calls 10%nat (trace Scenario.after_two_rounds)
    = [(VUndefined, [Scenario.load_event])] /\
  currentlyBlockedEvents Scenario.after_two_rounds
    = Some [CWrappedHandler 2%nat
              [("readyState", Some 4); ("responseTextLength", Some 5)]
              (VFunction 10%nat None) [Scenario.load_event] "onload(4,false)"] /\
  mustUnblockEventsNow Scenario.after_two_rounds = false /\
  microtasks Scenario.after_two_rounds = [] /\
  currentlyBlockingOnSyncXHRs Scenario.after_two_rounds = 1.
Proof. vm_compute. repeat split. Qed.

(** The same when the second synchronous call starts before the drain
    turn of the first: the forced drain inside the second [send] calls
    the handler once and leaves the guard set, and the drain turn that
    follows calls nothing. *)
Lemma second_round_is_never_drained_after_forced_drain :
  calls 10%nat (trace Scenario.after_two_rounds_back_to_back)
    = [(VUndefined, [Scenario.load_event])] /\
  currentlyBlockedEvents Scenario.after_two_rounds_back_to_back
    = Some [CWrappedHandler 2%nat
              [("readyState", Some 4); ("responseTextLength", Some 5)]
              (VFunction 10%nat None) [Scenario.load_event] "onload(4,false)"] /\
  microtasks Scenario.after_two_rounds_back_to_back = [] /\
  currentlyBlockingOnSyncXHRs Scenario.after_two_rounds_back_to_back = 1.
Proof. vm_compute. repeat split. Qed.

(** ** A synchronous request started during the drain *)

(** C3.  Two signals of request 2 are blocked while request 1 is sent.
    In the drain the handler of the first (function 10) opens and sends
    the synchronous request 3.  That [send] assigns a new empty array:
    the second signal is gone, its handler (function 11) is never
    called, and the depth ends at 1 with nothing scheduled. *)
Theorem nested_send_replaces_the_queue :
  currentlyBlockedEvents Scenario.before_nested_replay
    = Some [Scenario.blocked10; Scenario.blocked11] /\
  currentlyBlockingOnSyncXHRs Scenario.before_nested_replay = 1 /\
  calls 10%nat (trace Scenario.after_nested_replay)
    = [(VUndefined, [Scenario.progress_event])] /\
  sends 3%nat (trace Scenario.after_nested_replay) = [[]] /\
  calls 11%nat (trace Scenario.after_nested_replay) = [] /\
  currentlyBlockedEvents Scenario.after_nested_replay = Some [] /\
  microtasks Scenario.after_nested_replay = [] /\
  currentlyBlockingOnSyncXHRs Scenario.after_nested_replay = 1.
Proof. vm_compute. repeat split. Qed.

(** ** Deferred handlers with a [handleEvent] method *)

(** C6.  A load of request 2 is blocked and replayed.  When the handler
    is an object exposing [handleEvent], the replay calls the method
    with the arguments object as its one argument, not with the event,
    and then fails on [handler.apply]: the capture stays installed and
    the drain is abandoned at depth 1.  When the handler is a callable
    that also carries [handleEvent], the replay calls both the method
    and the function: two calls for one signal. *)
Theorem deferred_listener_is_not_called_once_with_its_arguments :
  calls 21%nat (trace Scenario.after_deferred_listener)
    = [(Scenario.listener, [VArguments [Scenario.load_event]])] /\
  spoof_prop "readyState"
    <$> XHRStateSpoofs Scenario.after_deferred_listener !! 2%nat
    = Some (Some 4) /\
  currentlyBlockingOnSyncXHRs Scenario.after_deferred_listener = 1 /\
  calls 11%nat (trace Scenario.after_deferred_callable_listener)
    = [(Scenario.callable_listener, [VArguments [Scenario.load_event]])] /\
  calls 10%nat (trace Scenario.after_deferred_callable_listener)
    = [(VUndefined, [Scenario.load_event])].
Proof. vm_compute. repeat split. Qed.

(** The failing step itself: replaying a blocked signal whose handler
    is an object with [handleEvent] raises a TypeError once the method
    has returned. *)
Lemma replay_of_listener_raises xhr spoofs o m args d s :
  exists s',
    call_closure idle (CWrappedHandler xhr spoofs (VListener o m) args d) s
      = Some (s', Exc VTypeError).
Proof. eexists. reflexivity. Qed.

(** ** The body given to [send] *)

(** C7.  The page sends "a=1" on the asynchronous request 2 and "b=2"
    on the synchronous request 1.  The native [send] of request 2
    receives the arguments object as its body; that of request 1
    receives no body. *)
Theorem send_does_not_forward_the_body :
  sends 2%nat (trace Scenario.after_send_bodies) = [[VArguments [VStr "a=1"]]] /\
  sends 1%nat (trace Scenario.after_send_bodies) = [[]].
Proof. vm_compute. split; reflexivity. Qed.

(** ** The on* slots *)

(** After an assignment to the on* property of any request, reading
    that property on any request gives the handler just assigned: the
    variable [currentHandler] belongs to the property, not to the
    request. *)
Lemma get_on_reads_the_last_assignment evt this other handler s :
  exists s',
    set_on evt this handler s = Some (s', Ret tt) /\
    get_on evt other s' = Some (s', Ret handler) /\
    hx_slots (host_xhr this s') !! on_name evt
      = Some (wrapHandler handler (on_name evt)).
Proof.
  eexists. split; [reflexivity|].
  unfold get_on, gets, host_xhr. simpl.
  rewrite !lookup_insert_eq. simpl. rewrite lookup_insert_eq. auto.
Qed.

(** C8.  Function 10 is assigned to [onload] of request 1, then
    function 11 to [onload] of request 2; reading [onload] of request 1
    gives function 11.  Assigning [null] to [onload] of request 2 puts a
    wrapper of [null] in the native slot; when a load is dispatched the
    wrapper raises a TypeError, and when one is blocked a function is
    queued for it whose replay raises a TypeError. *)
Theorem on_slot_is_shared_and_null_is_wrapped :
  (exists s,
     Script.exec (Scenario.env_quiet (Script.Return VUndefined)) 30
       Scenario.two_onload_handlers initial
     = Some (s, Ret (VFunction 11%nat None))) /\
  hx_slots (host_xhr 2%nat Scenario.after_onload_set_to_null) !! on_name load
    = Some (MkWrapper VNull "onload") /\
  call_wrapper idle (MkWrapper VNull "onload") 2%nat [Scenario.load_event]
    Scenario.after_onload_set_to_null
    = Some (Scenario.after_onload_set_to_null, Exc VTypeError) /\
  (let blocked :=
     set_currentlyBlockedEvents (Some [])
       (set_currentlyBlockingOnSyncXHRs 1 Scenario.after_onload_set_to_null) in
   exists s c s',
     call_wrapper idle (MkWrapper VNull "onload") 2%nat [Scenario.load_event]
       blocked = Some (s, Ret VUndefined) /\
     currentlyBlockedEvents s = Some [c] /\
     call_closure idle c s = Some (s', Exc VTypeError)).
Proof.
  split; [eexists; vm_compute; reflexivity|].
  split; [vm_compute; reflexivity|].
  split; [vm_compute; reflexivity|].
  eexists _, _, _. split; [vm_compute; reflexivity|].
  split; [vm_compute; reflexivity|]. vm_compute. reflexivity.
Qed.

(** * Further properties *)

(** ** [spoofXHRState] merges *)

Lemma foldl_insert_lookup (values : SpoofValues) :
  forall (o : gmap string (option Z)) name,
    NoDup values.*1 ->
    foldl (fun o nv => <[nv.1 := nv.2]> o) o values !! name =
      match list_find (fun nv => nv.1 = name) values with
      | Some (_, nv) => Some nv.2
      | None => o !! name
      end.
Proof.
  induction values as [|[n v] values IH]; intros o name Hnd; [reflexivity|].
  simpl in *. apply NoDup_cons in Hnd as [Hn Hnd].
  rewrite (IH _ _ Hnd). case_decide as Heq.
  - subst n. destruct (list_find _ values) as [[i [n' v']]|] eqn:Hf.
    + apply list_find_Some in Hf as (Hi & Hn' & _). simpl in Hn'. subst n'.
      exfalso. apply Hn. apply list_elem_of_fmap. exists (name, v').
      split; [reflexivity|]. eapply list_elem_of_lookup_2, Hi.
    + simpl. apply lookup_insert_eq.
  - destruct (list_find _ values) as [[i nv]|]; simpl; [reflexivity|].
    apply lookup_insert_ne. exact Heq.
Qed.

(** X2.  [spoofXHRState(xhr, values)] with an object literal (no name
    twice) leaves the spoof object of [xhr] reading, for each name of
    [values], the value given, and for every other name what it read
    before (undefined on first use); the spoof objects of other
    requests are not touched. *)
Theorem spoofXHRState_merges xhr (values : SpoofValues) s :
  NoDup values.*1 ->
  exists s' spoofs,
    spoofXHRState xhr values s = Some (s', Ret tt) /\
    XHRStateSpoofs s' !! xhr = Some spoofs /\
    (forall name v, (name, v) ∈ values -> spoof_prop name spoofs = v) /\
    (forall name, name ∉ values.*1 ->
       spoof_prop name spoofs =
         match XHRStateSpoofs s !! xhr with
         | Some before => spoof_prop name before
         | None => None
         end) /\
    (forall other, other <> xhr ->
       XHRStateSpoofs s' !! other = XHRStateSpoofs s !! other).
Proof.
  intros Hnd. eexists _, _. split; [reflexivity|]. simpl.
  split; [apply lookup_insert_eq|]. split; [|split].
  - intros name v Hin. unfold spoof_prop.
    rewrite (foldl_insert_lookup _ _ _ Hnd).
    destruct (list_find _ values) as [[i [n' v']]|] eqn:Hf.
    + apply list_find_Some in Hf as (Hi & Hn' & _). simpl in *. subst n'.
      apply list_elem_of_lookup_2 in Hi.
      assert (Some v' = Some v) as [= ->]; [|reflexivity].
      rewrite <- (elem_of_list_to_map_1 (M := gmap string) values name v' Hnd Hi).
      apply (elem_of_list_to_map_1 (M := gmap string) values name v Hnd Hin).
    + apply list_find_None in Hf. rewrite Forall_forall in Hf.
      exfalso. apply (Hf _ Hin). reflexivity.
  - intros name Hout. unfold spoof_prop.
    rewrite (foldl_insert_lookup _ _ _ Hnd).
    destruct (list_find _ values) as [[i [n' v']]|] eqn:Hf.
    + apply list_find_Some in Hf as (Hi & Hn' & _). simpl in *. subst n'.
      exfalso. apply Hout. apply list_elem_of_fmap. exists (name, v').
      split; [reflexivity|]. eapply list_elem_of_lookup_2, Hi.
    + destruct (XHRStateSpoofs s !! xhr); reflexivity.
  - intros other Hne. apply lookup_insert_ne. congruence.
Qed.

(** ** What a blocked handler reads when it is replayed *)

Lemma append_cons c t more : String c t +:+ more = String c (t +:+ more).
Proof. reflexivity. Qed.

Lemma substring_prefix t more :
  String.substring 0 (String.length t) (t +:+ more) = t.
Proof.
  induction t as [|c t IH].
  - destruct more; reflexivity.
  - rewrite append_cons. simpl. f_equal. exact IH.
Qed.

Lemma length_append t more :
  String.length (t +:+ more) = (String.length t + String.length more)%nat.
Proof.
  induction t as [|c t IH]; [reflexivity|].
  rewrite append_cons. simpl. f_equal. exact IH.
Qed.

Lemma append_empty t : t +:+ EmptyString = t.
Proof.
  induction t as [|c t IH]; [reflexivity|].
  rewrite append_cons. f_equal. exact IH.
Qed.

(** X3.  A wrapper called at stage 3 or later on a text request, for an
    event other than progress, captures the stage and the length of the
    response it sees.  However much of the response has arrived since,
    once that capture is installed the getters give the stage as it was
    and the response as it was. *)
Theorem replay_reads_the_response_as_it_was this args readyState s t :
  text_shaped (hx_responseType (host_xhr this s)) = true ->
  3 <= readyState ->
  (forall loaded, args !! 0%nat <> Some (VEvent "progress" loaded)) ->
  get_responseText this s = Some (s, Ret t) ->
  exists spoofs,
    capture this args readyState s = Some (s, Ret spoofs) /\
    forall s2 more,
      text_shaped (hx_responseType (host_xhr this s2)) = true ->
      hx_responseText (host_xhr this s2) = t +:+ more ->
      exists s3,
        spoofXHRState this spoofs s2 = Some (s3, Ret tt) /\
        get_responseText this s3 = Some (s3, Ret t) /\
        get_readyState this s3 = Some (s3, Ret readyState).
Proof.
  intros Ht Hrs Hnp Hget.
  exists [("readyState", Some readyState);
          ("responseTextLength", Some (str_length t))].
  split.
  - unfold capture. unfold bind at 1. unfold gets at 1. rewrite Ht.
    destruct (Z.ltb_spec readyState 3) as [?|_]; [lia|].
    destruct (args !! 0%nat) as [[]|] eqn:Ha;
      try (rewrite (bind_run _ _ _ _ _ Hget); reflexivity).
    destruct (String.eqb_spec type "progress") as [->|_].
    + exfalso. eapply Hnp. reflexivity.
    + rewrite (bind_run _ _ _ _ _ Hget). reflexivity.
  - intros s2 more Ht2 Htext. eexists. split; [reflexivity|]. split.
    + erewrite get_responseText_captured.
      * match goal with
        | |- context [host_xhr this ?s3] =>
            change (host_xhr this s3) with (host_xhr this s2)
        end.
        rewrite Htext. unfold str_length, substr0.
        rewrite length_append, Nat2Z.id, substring_prefix.
        destruct (Z.eqb_spec (Z.of_nat (String.length t))
                    (Z.of_nat (String.length t + String.length more))) as [E|_];
          [|reflexivity].
        assert (String.length more = 0%nat) as Hm by lia.
        destruct more; [|discriminate]. rewrite append_empty. reflexivity.
      * exact Ht2.
      * simpl. apply lookup_insert_eq.
      * unfold spoof_prop. rewrite lookup_insert_eq. reflexivity.
    + eapply get_readyState_captured.
      * simpl. apply lookup_insert_eq.
      * unfold spoof_prop. rewrite lookup_insert_ne by discriminate.
        rewrite lookup_insert_eq. reflexivity.
      * lia.
Qed.

(** ** Admission of the signals of an asynchronous request *)

(** X4.  For a request not classified synchronous: at depth 0 the
    wrapper, in the state it was called in, calls the handler at once (a
    plain function with the request as [this] and the arguments of the
    signal, a handler carrying [handleEvent] through that method) and
    does what that call does; at any other depth it calls nothing,
    whatever the handler is, and appends to the array one function
    holding the request, the capture it built, the handler and the
    arguments, leaving everything else as it was. *)
Theorem async_signal_is_queued_while_blocking ext w this args s :
  this ∉ openSyncXHRs s ->
  (currentlyBlockingOnSyncXHRs s = 0 ->
   match w_handler w with
   | VFunction f None =>
       call_wrapper ext w this args s = ext (ECall f (VXhr this) args) s
   | VFunction _ (Some m) | VListener _ m =>
       call_wrapper ext w this args s
         = ext (ECall m (w_handler w) [VArguments args]) s
   | _ => call_wrapper ext w this args s = Some (s, Exc VTypeError)
   end) /\
  (forall q,
     currentlyBlockingOnSyncXHRs s <> 0 ->
     currentlyBlockedEvents s = Some q ->
     exists readyState spoofs description,
       get_readyState this s = Some (s, Ret readyState) /\
       capture this args readyState s = Some (s, Ret spoofs) /\
       call_wrapper ext w this args s =
         Some (set_currentlyBlockedEvents
                 (Some (q ++ [CWrappedHandler this spoofs (w_handler w) args
                                description])) s,
               Ret VUndefined)).
Proof.
  intros Hasync.
  destruct (get_readyState_total this s) as [n Hn].
  destruct (capture_total this args n s) as [spoofs Hc].
  assert (Hrun : call_wrapper ext w this args s =
    match admission false (negb (currentlyBlockingOnSyncXHRs s =? 0)) with
    | Queue =>
        (push (CWrappedHandler this spoofs (w_handler w) args
                 (w_type w +:+ "(" +:+ pretty n +:+ "," +:+ "false" +:+ ")")) ;;
         ret VUndefined) s
    | RunNow => run_now ext (w_handler w) (VXhr this) args s
    end).
  { unfold call_wrapper.
    rewrite (bind_run _ _ _ _ _ Hn), (bind_run _ _ _ _ _ Hc).
    rewrite (bind_run _ _ _ _ _ (is_sync_run this s)).
    rewrite bool_decide_eq_false_2 by exact Hasync.
    unfold blocking. unfold bind at 1. unfold gets at 1.
    destruct (admission _ _); reflexivity. }
  rewrite Hrun. split.
  - intros ->. simpl. apply run_now_calls.
  - intros q Hd Hq. destruct (Z.eqb_spec (currentlyBlockingOnSyncXHRs s) 0);
      [contradiction|].
    exists n, spoofs. eexists. split; [exact Hn|]. split; [exact Hc|].
    simpl. unfold push, bind, gets, modify, ret. rewrite Hq. reflexivity.
Qed.

(** ** The capture around a replayed handler *)



(** ** Instances *)

Lemma spoofXHRState_merges_witness :
  NoDup capture_4_5.*1 /\
  exists s' spoofs,
    spoofXHRState 2%nat capture_4_5 initial = Some (s', Ret tt) /\
    XHRStateSpoofs s' !! 2%nat = Some spoofs /\
    (forall name v, (name, v) ∈ capture_4_5 -> spoof_prop name spoofs = v) /\
    (forall name, name ∉ capture_4_5.*1 ->
       spoof_prop name spoofs =
         match XHRStateSpoofs initial !! 2%nat with
         | Some before => spoof_prop name before
         | None => None
         end) /\
    (forall other, other <> 2%nat ->
       XHRStateSpoofs s' !! other = XHRStateSpoofs initial !! other).
Proof.
  assert (H : NoDup capture_4_5.*1).
  { apply (bool_decide_unpack (NoDup capture_4_5.*1)). vm_compute. exact I. }
  split; [exact H|].
  exact (spoofXHRState_merges 2%nat capture_4_5 initial H).
Defined.

Lemma replay_reads_the_response_as_it_was_witness :
  text_shaped (hx_responseType (host_xhr 2%nat loading_hel)) = true /\
  get_responseText 2%nat loading_hel = Some (loading_hel, Ret "hel") /\
  exists spoofs,
    capture 2%nat [VEvent "readystatechange" None] 3 loading_hel
      = Some (loading_hel, Ret spoofs) /\
    forall s2 more,
      text_shaped (hx_responseType (host_xhr 2%nat s2)) = true ->
      hx_responseText (host_xhr 2%nat s2) = "hel" +:+ more ->
      exists s3,
        spoofXHRState 2%nat spoofs s2 = Some (s3, Ret tt) /\
        get_responseText 2%nat s3 = Some (s3, Ret "hel") /\
        get_readyState 2%nat s3 = Some (s3, Ret 3).
Proof.
  split; [reflexivity|]. split; [reflexivity|].
  apply (replay_reads_the_response_as_it_was 2%nat
           [VEvent "readystatechange" None] 3 loading_hel "hel").
  - reflexivity.
  - lia.
  - intros loaded H. discriminate H.
  - reflexivity.
Defined.

Lemma async_signal_is_queued_while_blocking_witness :
  ((2%nat ∉ openSyncXHRs initial) /\
   currentlyBlockingOnSyncXHRs initial = 0 /\
   call_wrapper (Script.external Scenario.env_windows 3)
     (MkWrapper (VFunction 10%nat None) "onload") 2%nat [VEvent "load" None] initial
   = Script.external Scenario.env_windows 3
       (ECall 10%nat (VXhr 2%nat) [VEvent "load" None]) initial /\
   calls 10%nat
     (trace (final (call_wrapper (Script.external Scenario.env_windows 3)
                      (MkWrapper (VFunction 10%nat None) "onload") 2%nat
                      [VEvent "load" None] initial)))
   = [(VXhr 2%nat, [VEvent "load" None])]) /\
  (2%nat ∉ openSyncXHRs three_deep) /\
  currentlyBlockingOnSyncXHRs three_deep <> 0 /\
  currentlyBlockedEvents three_deep = Some [] /\
  exists readyState spoofs description,
    get_readyState 2%nat three_deep = Some (three_deep, Ret readyState) /\
    capture 2%nat [VEvent "load" None] readyState three_deep
      = Some (three_deep, Ret spoofs) /\
    call_wrapper (Script.external Scenario.env_windows 3)
      (MkWrapper (VFunction 10%nat None) "onload") 2%nat
      [VEvent "load" None] three_deep =
      Some (set_currentlyBlockedEvents
              (Some ([] ++ [CWrappedHandler 2%nat spoofs (VFunction 10%nat None)
                              [VEvent "load" None] description])) three_deep,
            Ret VUndefined).
Proof.
  assert (H0 : 2%nat ∉ openSyncXHRs initial) by (simpl; set_solver).
  assert (H : 2%nat ∉ openSyncXHRs three_deep) by (simpl; set_solver).
  assert (Hd : currentlyBlockingOnSyncXHRs three_deep <> 0) by (simpl; lia).
  split.
  - split; [exact H0|]. split; [reflexivity|].
    split; [|vm_compute; reflexivity].
    exact (proj1 (async_signal_is_queued_while_blocking
                    (Script.external Scenario.env_windows 3)
                    (MkWrapper (VFunction 10%nat None) "onload") 2%nat
                    [VEvent "load" None] initial H0) eq_refl).
  - split; [exact H|]. split; [exact Hd|]. split; [reflexivity|].
    exact (proj2 (async_signal_is_queued_while_blocking
                    (Script.external Scenario.env_windows 3)
                    (MkWrapper (VFunction 10%nat None) "onload") 2%nat
                    [VEvent "load" None] three_deep H)
             [] Hd eq_refl).
Defined.


(** ** Posted messages *)

Lemma tick_step ext fuel s t rest :
  microtasks s = t :: rest ->
  Script.tick ext (S fuel) s =
    (try_catch (run_microtask ext fuel t) ;; Script.tick ext fuel)
      (set_microtasks rest s).
Proof.
  intros H. simpl. unfold bind at 1. unfold gets at 1. rewrite H. reflexivity.
Qed.

Lemma tick_empty ext fuel s :
  microtasks s = [] -> Script.tick ext (S fuel) s = Some (s, Ret VUndefined).
Proof.
  intros H. simpl. unfold bind, gets. rewrite H. reflexivity.
Qed.

(** X6.  [postMessage] itself calls nothing: it schedules its inner
    function.  With nothing else scheduled, the next tick hands the
    message to the native [postMessage] with the window and arguments
    of the call if the depth is 0; at any other depth the tick calls
    nothing and appends to the array a function whose replay is that
    native call. *)
Theorem posted_message_waits_for_the_tick_and_the_sync_call ext wnd args fuel s :
  microtasks s = [] ->
  postMessage wnd args s
    = Some (set_microtasks [MPostMessage wnd args] s, Ret VUndefined) /\
  (currentlyBlockingOnSyncXHRs s = 0 ->
   (postMessage wnd args ;; Script.tick ext (S (S fuel))) s
     = (try_catch (ext (EOldPM wnd args)) ;; Script.tick ext (S fuel)) s) /\
  (forall q,
     currentlyBlockingOnSyncXHRs s <> 0 ->
     currentlyBlockedEvents s = Some q ->
     (postMessage wnd args ;; Script.tick ext (S (S fuel))) s
       = Some (set_currentlyBlockedEvents (Some (q ++ [CPostMessage wnd args])) s,
               Ret VUndefined) /\
     call_closure ext (CPostMessage wnd args)
       = (ext (EOldPM wnd args) ;; ret VUndefined)).
Proof.
  intros Hm.
  assert (Hpost : postMessage wnd args s
                  = Some (set_microtasks [MPostMessage wnd args] s, Ret VUndefined)).
  { unfold postMessage, schedule, bind, modify, ret. rewrite Hm. reflexivity. }
  assert (Hpop : set_microtasks [] (set_microtasks [MPostMessage wnd args] s) = s).
  { rewrite <- Hm at 1. destruct s; reflexivity. }
  split; [exact Hpost|]. split.
  - intros Hd. rewrite (bind_run _ _ _ _ _ Hpost).
    rewrite (tick_step _ _ _ (MPostMessage wnd args) []) by reflexivity.
    rewrite Hpop.
    assert (Hrun : run_microtask ext (S fuel) (MPostMessage wnd args) s =
              match ext (EOldPM wnd args) s with
              | Some (s', Ret _) => Some (s', Ret VUndefined)
              | Some (s', Exc e) => Some (s', Exc e)
              | None => None
              end).
    { unfold run_microtask, postMessage_tick, blocking.
      unfold bind at 1. unfold gets at 1. rewrite Hd. reflexivity. }
    unfold bind at 1 2. unfold try_catch. rewrite Hrun.
    destruct (ext (EOldPM wnd args) s) as [[s1 [v|e]]|]; reflexivity.
  - intros q Hd Hq. split; [|reflexivity].
    rewrite (bind_run _ _ _ _ _ Hpost).
    rewrite (tick_step _ _ _ (MPostMessage wnd args) []) by reflexivity.
    rewrite Hpop.
    assert (Hrun : run_microtask ext (S fuel) (MPostMessage wnd args) s =
              Some (set_currentlyBlockedEvents
                      (Some (q ++ [CPostMessage wnd args])) s, Ret VUndefined)).
    { unfold run_microtask, postMessage_tick, blocking.
      unfold bind at 1. unfold gets at 1.
      destruct (Z.eqb_spec (currentlyBlockingOnSyncXHRs s) 0); [contradiction|].
      simpl. unfold push, bind, gets, modify, ret. rewrite Hq. reflexivity. }
    unfold bind at 1. unfold try_catch. rewrite Hrun.
    rewrite tick_empty; [reflexivity|exact Hm].
Qed.

Lemma posted_message_waits_for_the_tick_and_the_sync_call_witness :
  microtasks three_deep = [] /\
  currentlyBlockingOnSyncXHRs three_deep <> 0 /\
  (postMessage (VWindow 0%nat) [VStr "hi"; VStr "*"] ;; Script.tick idle 2) three_deep
    = Some (set_currentlyBlockedEvents
              (Some ([] ++ [CPostMessage (VWindow 0%nat) [VStr "hi"; VStr "*"]]))
              three_deep,
            Ret VUndefined).
Proof.
  assert (Hd : currentlyBlockingOnSyncXHRs three_deep <> 0) by (simpl; lia).
  split; [reflexivity|]. split; [exact Hd|].
  exact (proj1 (proj2 (proj2
           (posted_message_waits_for_the_tick_and_the_sync_call idle
              (VWindow 0%nat) [VStr "hi"; VStr "*"] 0 three_deep eq_refl))
           [] Hd eq_refl)).
Defined.

(** ** A native [send] that raises *)

(** X7.  When the native [send] of a synchronous request raises (an
    exception object, hence truthy) with the depth at 1, the patched
    [send] still requests the drain and schedules it, and then raises
    the same exception. *)
Theorem send_reraises_after_scheduling_the_drain ext fuel this arguments s s1 e :
  this ∈ openSyncXHRs s ->
  mustUnblockEventsNow s = false ->
  ext (EOldXHRSend this [])
    (set_currentlyBlockedEvents (Some [])
       (set_currentlyBlockingOnSyncXHRs (currentlyBlockingOnSyncXHRs s + 1) s))
    = Some (s1, Exc e) ->
  truthy e = true ->
  currentlyBlockingOnSyncXHRs s1 = 1 ->
  send ext fuel this arguments s =
    Some (set_microtasks (microtasks s1 ++ [MUnblockEventsIfNecessary])
            (set_mustUnblockEventsNow true s1),
          Exc e).
Proof.
  intros Hsync Hm Hraise Htruthy Hd.
  rewrite (send_sync_run _ _ _ _ _ Hsync Hm).
  unfold bind at 1. unfold try_catch. rewrite Hraise.
  unfold bind at 1. unfold gets at 1. rewrite Hd. simpl.
  unfold schedule, bind, modify. simpl. rewrite Htruthy. reflexivity.
Qed.

(** ** The on* properties are independent of one another *)

Lemma on_name_inj evt evt' : on_name evt = on_name evt' -> evt = evt'.
Proof. destruct evt, evt'; intros H; try reflexivity; discriminate H. Qed.

(** X8.  An assignment to one on* property of one request changes what
    that property reads and the native slot of that name on that
    request.  Every other on* property reads as before, on every
    request, and every other native slot holds what it held. *)
Theorem set_on_touches_one_property evt this handler s :
  exists s',
    set_on evt this handler s = Some (s', Ret tt) /\
    (forall evt' other,
       evt' <> evt ->
       exists v,
         get_on evt' other s = Some (s, Ret v) /\
         get_on evt' other s' = Some (s', Ret v)) /\
    (forall evt' other,
       evt' <> evt \/ other <> this ->
       hx_slots (host_xhr other s') !! on_name evt'
         = hx_slots (host_xhr other s) !! on_name evt').
Proof.
  eexists. split; [reflexivity|]. split.
  - intros evt' other Hne. eexists. split; [reflexivity|].
    unfold get_on, gets. simpl.
    rewrite lookup_insert_ne; [reflexivity|].
    intros H. apply Hne. symmetry. apply on_name_inj. exact H.
  - intros evt' other Hne. unfold host_xhr at 1. simpl.
    destruct (decide (other = this)) as [->|Hother].
    + rewrite lookup_insert_eq. simpl. apply lookup_insert_ne.
      intros H. apply on_name_inj in H. destruct Hne; congruence.
    + rewrite lookup_insert_ne by congruence. reflexivity.
Qed.

Lemma send_reraises_after_scheduling_the_drain_witness :
  1%nat ∈ openSyncXHRs opened_sync /\
  mustUnblockEventsNow opened_sync = false /\
  exists s1,
    refusing (EOldXHRSend 1%nat [])
      (set_currentlyBlockedEvents (Some [])
         (set_currentlyBlockingOnSyncXHRs
            (currentlyBlockingOnSyncXHRs opened_sync + 1) opened_sync))
      = Some (s1, Exc (VException "NetworkError")) /\
    currentlyBlockingOnSyncXHRs s1 = 1 /\
    send refusing 0 1%nat [VStr "body"] opened_sync =
      Some (set_microtasks (microtasks s1 ++ [MUnblockEventsIfNecessary])
              (set_mustUnblockEventsNow true s1),
            Exc (VException "NetworkError")).
Proof.
  assert (H : 1%nat ∈ openSyncXHRs opened_sync) by (simpl; set_solver).
  split; [exact H|]. split; [reflexivity|].
  eexists. split; [reflexivity|]. split; [reflexivity|].
  exact (send_reraises_after_scheduling_the_drain refusing 0 1%nat [VStr "body"]
           opened_sync _ (VException "NetworkError") H eq_refl eq_refl eq_refl
           eq_refl).
Defined.

(** ** Invariants of every program *)

Lemma preserves_ret {A} I (a : A) : preserves I (ret a).
Proof. intros s s' o HI H. inversion H; subst. exact HI. Qed.

Lemma preserves_throw {A} I e : preserves I (@throw A e).
Proof. intros s s' o HI H. inversion H; subst. exact HI. Qed.

Lemma preserves_gets {A} I (f : State -> A) : preserves I (gets f).
Proof. intros s s' o HI H. inversion H; subst. exact HI. Qed.

Lemma preserves_out_of_fuel {A} I :
  preserves I (fun _ : State => @None (State * Outcome A)).
Proof. intros s s' o _ H. discriminate. Qed.

Lemma preserves_modify I f :
  (forall s, I s -> I (f s)) -> preserves I (modify f).
Proof. intros Hf s s' o HI H. inversion H; subst. auto. Qed.

Lemma preserves_bind {A B} I (m : M A) (k : A -> M B) :
  preserves I m -> (forall a, preserves I (k a)) -> preserves I (bind m k).
Proof.
  intros Hm Hk s s' o HI H. unfold bind in H.
  destruct (m s) as [[s1 [a|e]]|] eqn:E; [| |discriminate].
  - eapply Hk; [|exact H]. eapply Hm; eauto.
  - inversion H; subst. eapply Hm; eauto.
Qed.

Lemma preserves_try_catch {A} I (m : M A) :
  preserves I m -> preserves I (try_catch m).
Proof.
  intros Hm s s' o HI H. unfold try_catch in H.
  destruct (m s) as [[s1 o1]|] eqn:E; [|discriminate].
  inversion H; subst. eapply Hm; eauto.
Qed.

Create HintDb pres.
#[local] Hint Resolve preserves_ret preserves_throw preserves_gets
  preserves_out_of_fuel preserves_try_catch : pres.

Ltac pres_step Hframe :=
  match goal with
  | |- preserves _ (bind _ _) => apply preserves_bind; [|intros ?]
  | |- preserves _ (modify _) =>
      apply preserves_modify; intros ? ?; eapply Hframe;
      [eassumption|reflexivity|reflexivity|reflexivity|simpl; congruence]
  | |- preserves _ (match ?x with _ => _ end) => destruct x
  | |- preserves _ (let _ := _ in _) => cbv zeta
  | |- preserves _ _ => solve [eauto with pres]
  end.
Ltac pres Hframe := repeat (pres_step Hframe).

Section Preserves.

Variable I : State -> Prop.
Hypothesis I_framed : framed I.

(** What [send] and [unblockEventsIfNecessary] do to the depth, the
    request flag and the guard. *)
Hypothesis I_enter : forall s,
  I s ->
  I (set_currentlyBlockedEvents (Some [])
       (set_currentlyBlockingOnSyncXHRs (currentlyBlockingOnSyncXHRs s + 1) s)).
Hypothesis I_request : forall s,
  I s -> currentlyBlockingOnSyncXHRs s = 1 -> I (set_mustUnblockEventsNow true s).
Hypothesis I_unrequest : forall s, I s -> I (set_mustUnblockEventsNow false s).

Variable ext : External -> M Value.
Hypothesis I_ext : forall e, preserves I (ext e).

Hypothesis I_drain : forall fuel s s1 o,
  I s ->
  mustUnblockEventsNow s = true ->
  unblockingEvents s = false ->
  drain ext fuel (set_unblockingEvents true (set_mustUnblockEventsNow false s))
    = Some (s1, o) ->
  match o with
  | Ret _ => I (set_currentlyBlockingOnSyncXHRs (currentlyBlockingOnSyncXHRs s1 - 1)
                  (set_unblockingEvents true s1))
  | Exc _ => I s1
  end.

Lemma preserves_get_readyState this : preserves I (get_readyState this).
Proof. unfold get_readyState, oldXHRRS. pres I_framed. Qed.

Lemma preserves_get_responseText this : preserves I (get_responseText this).
Proof. unfold get_responseText, oldXHRRT. pres I_framed. Qed.

Lemma preserves_spoofXHRState xhr values : preserves I (spoofXHRState xhr values).
Proof. unfold spoofXHRState. pres I_framed. Qed.

Lemma preserves_push f : preserves I (push f).
Proof. unfold push. pres I_framed. Qed.

Lemma preserves_capture this args readyState :
  preserves I (capture this args readyState).
Proof. pose proof preserves_get_responseText. unfold capture. pres I_framed. Qed.

Lemma preserves_run_now handler this args :
  preserves I (run_now ext handler this args).
Proof.
  pose proof I_ext.
  unfold run_now, call_handleEvent, apply_handler, get_handleEvent.
  pres I_framed.
Qed.

Lemma preserves_call_wrapper w this args :
  preserves I (call_wrapper ext w this args).
Proof.
  pose proof preserves_run_now. pose proof preserves_capture.
  pose proof preserves_push. pose proof preserves_get_readyState.
  unfold call_wrapper, is_sync, blocking. pres I_framed.
Qed.

Lemma preserves_call_closure evt : preserves I (call_closure ext evt).
Proof.
  pose proof I_ext. pose proof preserves_spoofXHRState.
  unfold call_closure, call_handleEvent, apply_handler, get_handleEvent.
  pres I_framed.
Qed.

Lemma preserves_drain fuel : preserves I (drain ext fuel).
Proof.
  pose proof preserves_call_closure.
  induction fuel as [|fuel IH]; simpl; pres I_framed.
Qed.

Lemma preserves_unblockEventsIfNecessary fuel :
  preserves I (unblockEventsIfNecessary ext fuel).
Proof.
  intros s s' o HI H.
  destruct (mustUnblockEventsNow s) eqn:Hm.
  - destruct (unblockingEvents s) eqn:Hg.
    + rewrite (unblock_guarded _ _ _ Hm Hg) in H. inversion H; subst.
      apply I_unrequest, HI.
    + rewrite (unblock_run _ _ _ Hm Hg) in H.
      destruct (drain ext fuel _) as [[s1 [called|e]]|] eqn:Hd;
        [| |discriminate]; inversion H; subst.
      * exact (I_drain fuel s s1 (Ret called) HI Hm Hg Hd).
      * exact (I_drain fuel s s' (Exc e) HI Hm Hg Hd).
  - rewrite (unblock_not_requested _ _ _ Hm) in H. inversion H; subst. exact HI.
Qed.

Lemma preserves_send fuel this arguments :
  preserves I (send ext fuel this arguments).
Proof.
  pose proof I_ext. pose proof preserves_unblockEventsIfNecessary.
  unfold send, is_sync.
  apply preserves_bind; [pres I_framed|]. intros [|]; [|pres I_framed].
  apply preserves_bind; [pres I_framed|]. intros _.
  intros s s' o HI Hrun.
  unfold bind at 1 in Hrun. unfold modify at 1 in Hrun.
  unfold bind at 1 in Hrun. unfold modify at 1 in Hrun.
  apply I_enter in HI. revert Hrun.
  generalize (set_currentlyBlockedEvents (Some [])
                (set_currentlyBlockingOnSyncXHRs
                   (currentlyBlockingOnSyncXHRs s + 1) s)) HI.
  clear s HI. intros s HI Hrun.
  unfold bind at 1 in Hrun. unfold try_catch in Hrun.
  destruct (ext (EOldXHRSend this []) s) as [[s1 caught]|] eqn:Hext;
    [|discriminate].
  assert (HI1 : I s1) by (eapply I_ext; eauto).
  unfold bind at 1 in Hrun. unfold gets at 1 in Hrun.
  assert (Hafter : forall s2, I s2 ->
            match caught with
            | Exc caughtException =>
                if truthy caughtException then throw caughtException
                else ret VUndefined
            | Ret _ => ret VUndefined
            end s2 = Some (s', o) -> I s').
  { intros s2 HI2. destruct caught as [v|e]; [|destruct (truthy e)];
      intros Heq; inversion Heq; subst; exact HI2. }
  destruct (Z.eqb_spec (currentlyBlockingOnSyncXHRs s1) 1) as [Hone|_].
  - unfold bind at 1 in Hrun. unfold bind at 1 in Hrun.
    unfold modify at 1 in Hrun. unfold schedule, modify in Hrun.
    eapply Hafter; [|exact Hrun].
    eapply I_framed; [apply (I_request s1 HI1 Hone)| | | |]; simpl; auto.
  - unfold bind at 1 in Hrun. unfold ret at 1 in Hrun.
    eapply Hafter; [|exact Hrun]. exact HI1.
Qed.

Lemma preserves_open this arguments : preserves I (open ext this arguments).
Proof. pose proof I_ext. unfold open. pres I_framed. Qed.

Lemma preserves_postMessage_tick wnd args :
  preserves I (postMessage_tick ext wnd args).
Proof.
  pose proof I_ext. pose proof preserves_push.
  unfold postMessage_tick, blocking. pres I_framed.
Qed.

Lemma preserves_run_microtask fuel t : preserves I (run_microtask ext fuel t).
Proof.
  pose proof preserves_unblockEventsIfNecessary.
  pose proof preserves_postMessage_tick.
  unfold run_microtask. pres I_framed.
Qed.

Lemma preserves_fire evt x event : preserves I (Script.fire ext evt x event).
Proof. pose proof preserves_call_wrapper. unfold Script.fire. pres I_framed. Qed.

Lemma preserves_tick fuel : preserves I (Script.tick ext fuel).
Proof.
  pose proof preserves_run_microtask.
  induction fuel as [|fuel IH]; simpl; pres I_framed.
Qed.

Lemma preserves_step fuel st : preserves I (Script.step ext fuel st).
Proof.
  pose proof preserves_open. pose proof preserves_send.
  pose proof preserves_fire. pose proof preserves_tick.
  pose proof preserves_get_readyState. pose proof preserves_get_responseText.
  unfold Script.step, Script.set_native, postMessage, schedule, set_on, get_on,
    nativeSet.
  pres I_framed.
Qed.

End Preserves.

Lemma guarded_above_framed d : framed (guarded_above d).
Proof.
  intros s s' (Ha & Hg & Hd) Eg Ed Em Eq. unfold guarded_above, array_known.
  rewrite Eg, Ed, Em. auto.
Qed.

Lemma depth_known_framed : framed depth_known.
Proof.
  intros s s' (Ha & Hd & Hm) Eg Ed Em Eq. unfold depth_known, array_known.
  rewrite Eg, Ed, Em. auto.
Qed.

Section GuardedAbove.

Variable d : Z.
Variable ext : External -> M Value.
Hypothesis ext_guarded_above : forall e, preserves (guarded_above d) (ext e).

Lemma guarded_above_enter s :
  guarded_above d s ->
  guarded_above d
    (set_currentlyBlockedEvents (Some [])
       (set_currentlyBlockingOnSyncXHRs (currentlyBlockingOnSyncXHRs s + 1) s)).
Proof.
  intros (Ha & Hg & Hd). unfold guarded_above, array_known. simpl.
  split; [discriminate|]. split; [exact Hg|lia].
Qed.

Lemma guarded_above_request s :
  guarded_above d s ->
  currentlyBlockingOnSyncXHRs s = 1 ->
  guarded_above d (set_mustUnblockEventsNow true s).
Proof.
  intros (Ha & Hg & Hd) Hone. unfold guarded_above, array_known. simpl.
  split; [|auto]. intros Hq. destruct (Ha Hq). lia.
Qed.

Lemma guarded_above_unrequest s :
  guarded_above d s -> guarded_above d (set_mustUnblockEventsNow false s).
Proof.
  intros (Ha & Hg & Hd). unfold guarded_above, array_known. simpl.
  split; [|auto]. intros Hq. destruct (Ha Hq). auto.
Qed.

Lemma guarded_above_drain fuel : preserves (guarded_above d) (drain ext fuel).
Proof.
  apply preserves_drain; [apply guarded_above_framed|exact ext_guarded_above].
Qed.

Lemma guarded_above_step fuel st :
  preserves (guarded_above d) (Script.step ext fuel st).
Proof.
  apply preserves_step;
    auto using guarded_above_framed, guarded_above_enter, guarded_above_request,
      guarded_above_unrequest.
  intros fuel' s s1 o (_ & Hg & _) _ Hclear. congruence.
Qed.

End GuardedAbove.

Section DepthKnown.

Variable ext : External -> M Value.
Hypothesis ext_guarded_above : forall d e, preserves (guarded_above d) (ext e).
Hypothesis ext_depth_known : forall e, preserves depth_known (ext e).

Lemma depth_known_enter s :
  depth_known s ->
  depth_known
    (set_currentlyBlockedEvents (Some [])
       (set_currentlyBlockingOnSyncXHRs (currentlyBlockingOnSyncXHRs s + 1) s)).
Proof.
  intros (Ha & Hd & Hm). unfold depth_known, array_known. simpl.
  split; [discriminate|]. split; [lia|]. intros. lia.
Qed.

Lemma depth_known_request s :
  depth_known s ->
  currentlyBlockingOnSyncXHRs s = 1 ->
  depth_known (set_mustUnblockEventsNow true s).
Proof.
  intros (Ha & Hd & Hm) Hone. unfold depth_known, array_known. simpl.
  split; [|split; [exact Hd|intros; lia]].
  intros Hq. destruct (Ha Hq). lia.
Qed.

Lemma depth_known_unrequest s :
  depth_known s -> depth_known (set_mustUnblockEventsNow false s).
Proof.
  intros (Ha & Hd & Hm). unfold depth_known, array_known. simpl.
  split; [|split; [exact Hd|intros; discriminate]].
  intros Hq. destruct (Ha Hq). auto.
Qed.

Lemma depth_known_after_drain fuel s s1 o :
  depth_known s ->
  mustUnblockEventsNow s = true ->
  unblockingEvents s = false ->
  drain ext fuel (set_unblockingEvents true (set_mustUnblockEventsNow false s))
    = Some (s1, o) ->
  match o with
  | Ret _ =>
      depth_known
        (set_currentlyBlockingOnSyncXHRs (currentlyBlockingOnSyncXHRs s1 - 1)
           (set_unblockingEvents true s1))
  | Exc _ => depth_known s1
  end.
Proof.
  intros (Ha & Hd & Hm) Hmust Hclear Hrun.
  assert (Hstart : guarded_above 1
            (set_unblockingEvents true (set_mustUnblockEventsNow false s))).
  { unfold guarded_above, array_known. simpl. split; [|auto].
    intros Hq. destruct (Ha Hq). congruence. }
  destruct (guarded_above_drain 1 ext (ext_guarded_above 1) fuel _ _ _ Hstart Hrun)
    as (Ha1 & Hg1 & Hd1).
  destruct o as [called|e]; unfold depth_known, array_known; simpl.
  - split; [|split; [lia|intros; discriminate]].
    intros Hq. destruct (Ha1 Hq). lia.
  - split; [exact Ha1|]. split; [lia|]. intros. congruence.
Qed.

Lemma depth_known_step fuel st : preserves depth_known (Script.step ext fuel st).
Proof.
  apply preserves_step;
    auto using depth_known_framed, depth_known_enter, depth_known_request,
      depth_known_unrequest.
  intros fuel' s s1 o. apply depth_known_after_drain.
Qed.

End DepthKnown.

Lemma preserves_log I e : framed I -> preserves I (Script.log e).
Proof. intros Hframe. unfold Script.log. pres Hframe. Qed.

Lemma exec_invariants env fuel : forall c,
  (forall d, preserves (guarded_above d) (Script.exec env fuel c)) /\
  preserves depth_known (Script.exec env fuel c).
Proof.
  induction fuel as [|fuel IH]; intros c; simpl.
  - split; [intros d|]; apply preserves_out_of_fuel.
  - assert (Hg : forall d e,
              preserves (guarded_above d)
                (Script.log e ;; Script.exec env fuel (Script.code_of env e))).
    { intros d e. apply preserves_bind;
        [apply preserves_log, guarded_above_framed|].
      intros _. apply IH. }
    assert (Hd : forall e,
              preserves depth_known
                (Script.log e ;; Script.exec env fuel (Script.code_of env e))).
    { intros e. apply preserves_bind;
        [apply preserves_log, depth_known_framed|].
      intros _. apply IH. }
    split; [intros d|]; destruct c as [v|e|st k];
      try apply preserves_ret; try apply preserves_throw.
    + apply preserves_bind; [|intros o; apply IH].
      apply preserves_try_catch, guarded_above_step. apply Hg.
    + apply preserves_bind; [|intros o; apply IH].
      apply preserves_try_catch, depth_known_step; [exact Hg|exact Hd].
Qed.

Lemma depth_known_initial : depth_known initial.
Proof.
  unfold depth_known, array_known. simpl. split; [auto|]. split; [lia|].
  intros; discriminate.
Qed.


(** X10.  In every program run from the initial state the depth is
    never negative: the only decrement follows a drain that was
    requested at depth 1 and during which the depth cannot go down. *)
Theorem depth_is_never_negative env fuel c s o :
  Script.exec env fuel c initial = Some (s, o) ->
  0 <= currentlyBlockingOnSyncXHRs s.
Proof.
  intros Hrun.
  destruct (proj2 (exec_invariants env fuel c) _ _ _ depth_known_initial Hrun)
    as (_ & Hd & _).
  exact Hd.
Qed.

(** X11.  Once the guard is set the depth never goes down again,
    whatever program runs: each later synchronous [send] adds one to it
    and nothing takes it back. *)
Theorem depth_never_decreases_under_the_guard env fuel c s s' o :
  array_known s ->
  unblockingEvents s = true ->
  Script.exec env fuel c s = Some (s', o) ->
  unblockingEvents s' = true /\
  currentlyBlockingOnSyncXHRs s <= currentlyBlockingOnSyncXHRs s'.
Proof.
  intros Ha Hg Hrun.
  assert (Hstart : guarded_above (currentlyBlockingOnSyncXHRs s) s).
  { unfold guarded_above. split; [exact Ha|]. split; [exact Hg|lia]. }
  destruct (proj1 (exec_invariants env fuel c) _ _ _ _ Hstart Hrun)
    as (_ & Hg' & Hd').
  auto.
Qed.


Lemma depth_is_never_negative_witness :
  exists s o,
    Script.exec Scenario.env_nested 30 Scenario.blocked_progress_and_load initial
      = Some (s, o) /\
    0 <= currentlyBlockingOnSyncXHRs s.
Proof.
  destruct (Script.exec Scenario.env_nested 30 Scenario.blocked_progress_and_load
              initial) as [[s o]|] eqn:E; [|vm_compute in E; discriminate].
  exists s, o. split; [reflexivity|].
  exact (depth_is_never_negative Scenario.env_nested 30
           Scenario.blocked_progress_and_load s o E).
Defined.

Lemma depth_never_decreases_under_the_guard_witness :
  array_known Scenario.after_one_round /\
  unblockingEvents Scenario.after_one_round = true /\
  exists s' o,
    Script.exec Scenario.env_rounds 30 (Scenario.round (Script.Return VUndefined))
      Scenario.after_one_round = Some (s', o) /\
    unblockingEvents s' = true /\
    currentlyBlockingOnSyncXHRs Scenario.after_one_round
      <= currentlyBlockingOnSyncXHRs s'.
Proof.
  assert (Ha : array_known Scenario.after_one_round).
  { intros H. vm_compute in H. discriminate. }
  assert (Hg : unblockingEvents Scenario.after_one_round = true)
    by (vm_compute; reflexivity).
  split; [exact Ha|]. split; [exact Hg|].
  destruct (Script.exec Scenario.env_rounds 30
              (Scenario.round (Script.Return VUndefined)) Scenario.after_one_round)
    as [[s' o]|] eqn:E; [|vm_compute in E; discriminate].
  exists s', o. split; [reflexivity|].
  exact (depth_never_decreases_under_the_guard Scenario.env_rounds 30
           (Scenario.round (Script.Return VUndefined)) Scenario.after_one_round
           s' o Ha Hg E).
Defined.

(** ** [findProperty] *)

(** X1.  [findProperty(obj, name)] gives the descriptor held by the
    nearest object of the prototype chain that has [name] as an own
    property, the object itself first, and [undefined] exactly when no
    object of the chain has it. *)
Theorem findProperty_finds_the_nearest {D} (obj : Obj D) name :
  findProperty obj name =
    match list_find (fun own => is_Some (own !! name)) (chain obj) with
    | Some (_, own) => own !! name
    | None => None
    end.
Proof.
  revert obj. fix IH 1. intros [own proto]. simpl.
  destruct (own !! name) as [prop|] eqn:Hown.
  - rewrite decide_True by eauto. simpl. symmetry. exact Hown.
  - rewrite decide_False by (intros [? ?]; discriminate).
    destruct proto as [obj'|]; simpl.
    + rewrite (IH obj').
      destruct (list_find _ (chain obj')) as [[i own']|]; reflexivity.
    + reflexivity.
Qed.

(** ** Listener registration *)

Lemma wm_get_set k w m : wm_get k (wm_set k w m) = Some w.
Proof.
  induction m as [|[k' w'] m IH]; simpl.
  - rewrite decide_True by reflexivity. reflexivity.
  - destruct (decide (k = k')) as [->|Hne]; simpl.
    + rewrite decide_True by reflexivity. reflexivity.
    + rewrite decide_False by exact Hne. exact IH.
Qed.

Lemma wm_set_known k w m : wm_get k m = Some w -> wm_set k w m = m.
Proof.
  induction m as [|[k' w'] m IH]; simpl; [discriminate|].
  destruct (decide (k = k')) as [->|Hne].
  - intros [= ->]. reflexivity.
  - intros H. rewrite (IH H). reflexivity.
Qed.

Lemma listeners_of_insert this L regs fs m :
  listeners_of this (MkRegistry regs fs (<[this := L]> m)) = L.
Proof. unfold listeners_of. simpl. rewrite lookup_insert_eq. reflexivity. Qed.

Lemma oldXHRAEL_registers this type w options r :
  (type, w, capture_flag options) ∈ listeners_of this (oldXHRAEL this type w options r).
Proof.
  unfold oldXHRAEL. case_bool_decide as Hin; [exact Hin|].
  rewrite listeners_of_insert. apply elem_of_app. right.
  apply list_elem_of_singleton. reflexivity.
Qed.

Lemma oldXHRAEL_registered this type w options r :
  (type, w, capture_flag options) ∈ listeners_of this r ->
  oldXHRAEL this type w options r = r.
Proof. intros Hin. unfold oldXHRAEL. rewrite bool_decide_eq_true_2; auto. Qed.

Lemma object_is_truthy v k : weak_key v = Some k -> truthy v = true.
Proof. destruct v; simpl; intros H; try reflexivity; discriminate H. Qed.

(** What [addEventListener] does for a handler that is an object. *)
Lemma addEventListener_object this type handler options r k :
  weak_key handler = Some k ->
  exists w fs,
    (match wm_get k (registeredListeners r) with
     | Some w' => w = w' /\ fs = functions r
     | None => w = length (functions r) /\
               fs = functions r ++ [wrapHandler handler type]
     end) /\
    addEventListener this type handler options r =
      (let r2 := oldXHRAEL this type w options
                   (MkRegistry (registeredListeners r) fs (listeners r)) in
       MkRegistry (wm_set k w (registeredListeners r2)) (functions r2) (listeners r2),
       Ret VUndefined).
Proof.
  intros Hk. unfold addEventListener.
  rewrite (object_is_truthy _ _ Hk), Hk. simpl.
  destruct (wm_get k (registeredListeners r)) as [w|] eqn:Hget.
  - exists w, (functions r). split; [auto|]. destruct r; reflexivity.
  - eexists _, _. split; [split; reflexivity|]. reflexivity.
Qed.

(** X12.  Registering the same handler object a second time, for the
    same request, type and options, changes nothing: the wrapper made
    the first time is found again and the host, given the same
    function, keeps its one registration. *)
Theorem addEventListener_twice_is_once this type handler options r :
  is_Some (weak_key handler) ->
  let r1 := (addEventListener this type handler options r).1 in
  addEventListener this type handler options r1 = (r1, Ret VUndefined).
Proof.
  intros [k Hk].
  destruct (addEventListener_object this type handler options r k Hk)
    as (w & fs & _ & Hadd).
  rewrite Hadd. cbn zeta. cbn [fst].
  set (r2 := oldXHRAEL this type w options
               (MkRegistry (registeredListeners r) fs (listeners r))).
  set (r1 := MkRegistry (wm_set k w (registeredListeners r2)) (functions r2)
               (listeners r2)).
  destruct (addEventListener_object this type handler options r1 k Hk)
    as (w' & fs' & Hw' & Hadd').
  rewrite Hadd'. unfold r1 in Hw' at 1. cbn [registeredListeners] in Hw'.
  rewrite wm_get_set in Hw'. destruct Hw' as [-> ->].
  assert (Hin : (type, w, capture_flag options) ∈ listeners_of this r1).
  { unfold r1, listeners_of. cbn [listeners].
    apply (oldXHRAEL_registers this type w options). }
  assert (Hsame : MkRegistry (registeredListeners r1) (functions r1) (listeners r1)
                  = r1) by reflexivity.
  rewrite Hsame, (oldXHRAEL_registered _ _ _ _ _ Hin).
  unfold r1 at 1. cbn [registeredListeners].
  rewrite (wm_set_known k w (wm_set k w (registeredListeners r2)))
    by apply wm_get_set.
  reflexivity.
Qed.

Lemma filter_all {A} (P : A -> Prop) `{!forall x, stdpp.base.Decision (P x)}
    (l : list A) :
  (forall x, x ∈ l -> P x) -> filter P l = l.
Proof.
  induction l as [|a l IH]; intros Hall; [reflexivity|].
  rewrite filter_cons, decide_True by (apply Hall; left).
  f_equal. apply IH. intros x Hx. apply Hall. right. exact Hx.
Qed.

Lemma listeners_of_oldXHRAEL this type w options r :
  listeners_of this (oldXHRAEL this type w options r) =
    if bool_decide ((type, w, capture_flag options) ∈ listeners_of this r)
    then listeners_of this r
    else listeners_of this r ++ [(type, w, capture_flag options)].
Proof.
  unfold oldXHRAEL. case_bool_decide; [reflexivity|].
  apply listeners_of_insert.
Qed.

Lemma listeners_of_oldXHRAEL_other this other type w options r :
  other <> this ->
  listeners_of other (oldXHRAEL this type w options r) = listeners_of other r.
Proof.
  intros Hne. unfold oldXHRAEL. case_bool_decide; [reflexivity|].
  unfold listeners_of. simpl. rewrite lookup_insert_ne by congruence. reflexivity.
Qed.

Lemma oldXHRAEL_keeps this x type w options r l :
  l ∈ listeners_of x r -> l ∈ listeners_of x (oldXHRAEL this type w options r).
Proof.
  intros Hin. destruct (decide (x = this)) as [->|Hne].
  - rewrite listeners_of_oldXHRAEL. case_bool_decide; [exact Hin|].
    apply elem_of_app. left. exact Hin.
  - rewrite listeners_of_oldXHRAEL_other by exact Hne. exact Hin.
Qed.

(** X13.  Removing a handler object after registering it, with the
    same request, type and options, takes its wrapper out of the native
    list of that request and nothing else: the list is the one before
    the registration without that listener, so it is the same list if
    the handler was not registered before.  The lists of other requests
    are as they were, and the script still knows the wrapper of the
    handler. *)
Theorem removeEventListener_undoes_addEventListener this type handler options r :
  is_Some (weak_key handler) ->
  let r1 := (addEventListener this type handler options r).1 in
  let r2 := removeEventListener this type handler options r1 in
  exists w,
    (weak_key handler ≫= fun k => wm_get k (registeredListeners r2)) = Some w /\
    listeners_of this r2 =
      filter (fun l => l <> (type, w, capture_flag options)) (listeners_of this r) /\
    ((type, w, capture_flag options) ∉ listeners_of this r ->
     listeners_of this r2 = listeners_of this r) /\
    (forall other, other <> this -> listeners_of other r2 = listeners_of other r).
Proof.
  intros [k Hk].
  destruct (addEventListener_object this type handler options r k Hk)
    as (w & fs & _ & Hadd).
  rewrite Hadd. cbn zeta. cbn [fst].
  set (r0 := MkRegistry (registeredListeners r) fs (listeners r)).
  set (ra := oldXHRAEL this type w options r0).
  unfold removeEventListener. rewrite (object_is_truthy _ _ Hk), Hk.
  cbn [registeredListeners]. rewrite wm_get_set.
  exists w. split; [simpl; apply wm_get_set|].
  assert (Hlist : listeners_of this
                    (oldXHRREL this type w options
                       (MkRegistry (wm_set k w (registeredListeners ra))
                          (functions ra) (listeners ra)))
                  = filter (fun l => l <> (type, w, capture_flag options))
                      (listeners_of this r)).
  { unfold oldXHRREL. rewrite listeners_of_insert.
    change (listeners_of this (MkRegistry _ (functions ra) (listeners ra)))
      with (listeners_of this ra).
    unfold ra. rewrite listeners_of_oldXHRAEL.
    change (listeners_of this r0) with (listeners_of this r).
    case_bool_decide; [reflexivity|].
    rewrite filter_app, filter_cons, decide_False by (intros H'; apply H'; reflexivity).
    rewrite filter_nil. apply app_nil_r. }
  split; [exact Hlist|]. split.
  - intros Hnew. rewrite Hlist. apply filter_all.
    intros l Hl ->. contradiction.
  - intros other Hne. unfold oldXHRREL, listeners_of at 1. cbn [listeners].
    rewrite lookup_insert_ne by congruence.
    change (default [] (listeners ra !! other)) with (listeners_of other ra).
    unfold ra. rewrite listeners_of_oldXHRAEL_other by exact Hne. reflexivity.
Qed.

(** X14.  A handler object gets one wrapper, made at its first
    registration and labelled with the type of that registration; a
    later registration of the handler, for whatever type and on whatever
    request, hands the host that same function. *)
Theorem one_wrapper_per_handler this other type type' handler options options' r :
  (exists k, weak_key handler = Some k /\ wm_get k (registeredListeners r) = None) ->
  let r1 := (addEventListener this type handler options r).1 in
  let r2 := (addEventListener other type' handler options' r1).1 in
  let w := length (functions r) in
  functions r2 = functions r ++ [wrapHandler handler type] /\
  (type, w, capture_flag options) ∈ listeners_of this r2 /\
  (type', w, capture_flag options') ∈ listeners_of other r2.
Proof.
  intros (k & Hk & Hnew).
  destruct (addEventListener_object this type handler options r k Hk)
    as (w & fs & Hw & Hadd).
  rewrite Hnew in Hw. destruct Hw as [-> ->].
  rewrite Hadd. cbn zeta. cbn [fst].
  set (ra := oldXHRAEL this type (length (functions r)) options _).
  set (r1 := MkRegistry _ (functions ra) (listeners ra)).
  destruct (addEventListener_object other type' handler options' r1 k Hk)
    as (w' & fs' & Hw' & Hadd').
  unfold r1 in Hw' at 1. cbn [registeredListeners] in Hw'.
  rewrite wm_get_set in Hw'. destruct Hw' as [-> ->].
  rewrite Hadd'. cbn [fst].
  set (rb := oldXHRAEL other type' (length (functions r)) options' _).
  assert (Hfa : functions ra = functions r ++ [wrapHandler handler type]).
  { unfold ra, oldXHRAEL. case_bool_decide; reflexivity. }
  assert (Hfb : functions rb = functions r ++ [wrapHandler handler type]).
  { unfold rb, oldXHRAEL. case_bool_decide; exact Hfa. }
  split; [exact Hfb|]. split.
  - change (listeners_of this (MkRegistry _ (functions rb) (listeners rb)))
      with (listeners_of this rb).
    unfold rb. apply oldXHRAEL_keeps.
    change (listeners_of this (MkRegistry (registeredListeners r1) (functions r1)
                                 (listeners r1)))
      with (listeners_of this ra).
    apply oldXHRAEL_registers.
  - change (listeners_of other (MkRegistry _ (functions rb) (listeners rb)))
      with (listeners_of other rb).
    apply oldXHRAEL_registers.
Qed.

(** X15.  A handler that is a truthy primitive (a number, a string,
    [true]) is wrapped and registered with the host, and only then does
    [registeredListeners.set] raise a TypeError: the call fails and
    still leaves one more native listener, a new one at every call. *)
Theorem addEventListener_primitive_handler this type handler options r :
  truthy handler = true ->
  weak_key handler = None ->
  (forall l, l ∈ listeners_of this r -> (l.1.2 < length (functions r))%nat) ->
  exists r',
    addEventListener this type handler options r = (r', Exc VTypeError) /\
    listeners_of this r' =
      listeners_of this r ++ [(type, length (functions r), capture_flag options)] /\
    functions r' = functions r ++ [wrapHandler handler type] /\
    registeredListeners r' = registeredListeners r.
Proof.
  intros Ht Hk Hwf. unfold addEventListener. rewrite Ht, Hk. simpl.
  eexists. split; [reflexivity|].
  set (r0 := MkRegistry (registeredListeners r)
               (functions r ++ [wrapHandler handler type]) (listeners r)).
  assert (Hfresh : (type, length (functions r), capture_flag options)
                   ∉ listeners_of this r0).
  { intros Hin. apply Hwf in Hin. simpl in Hin. lia. }
  split; [|split].
  - rewrite listeners_of_oldXHRAEL.
    rewrite bool_decide_eq_false_2 by exact Hfresh. reflexivity.
  - unfold oldXHRAEL. case_bool_decide; reflexivity.
  - unfold oldXHRAEL. case_bool_decide; reflexivity.
Qed.

Lemma addEventListener_twice_is_once_witness :
  is_Some (weak_key handler10) /\
  let r1 := (addEventListener 2%nat "load" handler10 VUndefined no_listeners).1 in
  listeners_of 2%nat r1 = [("load", 0%nat, false)] /\
  addEventListener 2%nat "load" handler10 VUndefined r1 = (r1, Ret VUndefined).
Proof.
  assert (H : is_Some (weak_key handler10)) by (eexists; reflexivity).
  split; [exact H|]. split; [reflexivity|].
  exact (addEventListener_twice_is_once 2%nat "load" handler10 VUndefined
           no_listeners H).
Defined.

Lemma removeEventListener_undoes_addEventListener_witness :
  is_Some (weak_key handler10) /\
  let r1 := (addEventListener 2%nat "load" handler10 (VBool true) no_listeners).1 in
  let r2 := removeEventListener 2%nat "load" handler10 (VBool true) r1 in
  listeners_of 2%nat r1 = [("load", 0%nat, true)] /\
  exists w,
    (weak_key handler10 ≫= fun k => wm_get k (registeredListeners r2)) = Some w /\
    listeners_of 2%nat r2 =
      filter (fun l => l <> ("load", w, capture_flag (VBool true)))
        (listeners_of 2%nat no_listeners) /\
    (("load", w, capture_flag (VBool true)) ∉ listeners_of 2%nat no_listeners ->
     listeners_of 2%nat r2 = listeners_of 2%nat no_listeners) /\
    (forall other, other <> 2%nat ->
       listeners_of other r2 = listeners_of other no_listeners).
Proof.
  assert (H : is_Some (weak_key handler10)) by (eexists; reflexivity).
  split; [exact H|]. split; [reflexivity|].
  exact (removeEventListener_undoes_addEventListener 2%nat "load" handler10
           (VBool true) no_listeners H).
Defined.

Lemma one_wrapper_per_handler_witness :
  (exists k, weak_key handler10 = Some k /\
             wm_get k (registeredListeners no_listeners) = None) /\
  let r1 := (addEventListener 2%nat "load" handler10 VUndefined no_listeners).1 in
  let r2 := (addEventListener 3%nat "error" handler10 VUndefined r1).1 in
  let w := length (functions no_listeners) in
  functions r2 = functions no_listeners ++ [wrapHandler handler10 "load"] /\
  ("load", w, capture_flag VUndefined) ∈ listeners_of 2%nat r2 /\
  ("error", w, capture_flag VUndefined) ∈ listeners_of 3%nat r2.
Proof.
  assert (H : exists k, weak_key handler10 = Some k /\
                        wm_get k (registeredListeners no_listeners) = None)
    by (eexists; split; reflexivity).
  split; [exact H|].
  exact (one_wrapper_per_handler 2%nat 3%nat "load" "error" handler10 VUndefined
           VUndefined no_listeners H).
Defined.

Lemma addEventListener_primitive_handler_witness :
  truthy primitive_handler = true /\
  weak_key primitive_handler = None /\
  exists r',
    addEventListener 2%nat "load" primitive_handler VUndefined no_listeners
      = (r', Exc VTypeError) /\
    listeners_of 2%nat r' =
      listeners_of 2%nat no_listeners
        ++ [("load", length (functions no_listeners), capture_flag VUndefined)] /\
    functions r' = functions no_listeners ++ [wrapHandler primitive_handler "load"] /\
    registeredListeners r' = registeredListeners no_listeners.
Proof.
  split; [reflexivity|]. split; [reflexivity|].
  apply (addEventListener_primitive_handler 2%nat "load" primitive_handler
           VUndefined no_listeners eq_refl eq_refl).
  intros l Hl. apply elem_of_nil in Hl. destruct Hl.
Defined.

(** ** More on what a replayed handler reads *)

(** X16.  For a progress event at stage 3 or later on a text request the
    capture holds the [loaded] of the event; once it is installed the
    [responseText] getter gives the first [loaded] characters of the
    response, however much has arrived. *)
Theorem replay_of_progress_reads_what_was_loaded this args readyState loaded s :
  text_shaped (hx_responseType (host_xhr this s)) = true ->
  3 <= readyState ->
  args !! 0%nat = Some (VEvent "progress" (Some loaded)) ->
  capture this args readyState s =
    Some (s, Ret [("readyState", Some readyState);
                  ("responseTextLength", Some loaded)]) /\
  forall s2 t more,
    text_shaped (hx_responseType (host_xhr this s2)) = true ->
    hx_responseText (host_xhr this s2) = t +:+ more ->
    str_length t = loaded ->
    exists s3,
      spoofXHRState this [("readyState", Some readyState);
                          ("responseTextLength", Some loaded)] s2
        = Some (s3, Ret tt) /\
      get_responseText this s3 = Some (s3, Ret t).
Proof.
  intros Ht Hrs Ha. split.
  - unfold capture. unfold bind at 1. unfold gets at 1. rewrite Ht.
    destruct (Z.ltb_spec readyState 3) as [?|_]; [lia|].
    rewrite Ha. reflexivity.
  - intros s2 t more Ht2 Htext <-. eexists. split; [reflexivity|].
    erewrite get_responseText_captured.
    + match goal with
      | |- context [host_xhr this ?s3] =>
          change (host_xhr this s3) with (host_xhr this s2)
      end.
      rewrite Htext. unfold str_length, substr0.
      rewrite length_append, Nat2Z.id, substring_prefix.
      destruct (Z.eqb_spec (Z.of_nat (String.length t))
                  (Z.of_nat (String.length t + String.length more))) as [E|_];
        [|reflexivity].
      assert (String.length more = 0%nat) as Hm by lia.
      destruct more; [|discriminate]. rewrite append_empty. reflexivity.
    + exact Ht2.
    + simpl. apply lookup_insert_eq.
    + unfold spoof_prop. rewrite lookup_insert_eq. reflexivity.
Qed.

Lemma replay_of_progress_reads_what_was_loaded_witness :
  text_shaped (hx_responseType (host_xhr 2%nat loading_hel)) = true /\
  capture 2%nat [VEvent "progress" (Some 3)] 3 loading_hel =
    Some (loading_hel, Ret [("readyState", Some 3); ("responseTextLength", Some 3)]) /\
  hx_responseText (host_xhr 2%nat done_hello) = "hel" +:+ "lo" /\
  exists s3,
    spoofXHRState 2%nat [("readyState", Some 3); ("responseTextLength", Some 3)]
      done_hello = Some (s3, Ret tt) /\
    get_responseText 2%nat s3 = Some (s3, Ret "hel").
Proof.
  split; [reflexivity|].
  destruct (replay_of_progress_reads_what_was_loaded 2%nat
              [VEvent "progress" (Some 3)] 3 3 loading_hel eq_refl)
    as [Hcapture Hreplay]; [lia|reflexivity|].
  split; [exact Hcapture|]. split; [reflexivity|].
  exact (Hreplay done_hello "hel" "lo" eq_refl eq_refl eq_refl).
Defined.

(** X17.  A signal of a text request that fires before stage 3 is
    captured with length 0: once the capture is installed the
    [responseText] getter gives the empty string, whatever the response
    has become. *)
Theorem replay_before_loading_reads_no_response this args readyState s :
  text_shaped (hx_responseType (host_xhr this s)) = true ->
  readyState < 3 ->
  capture this args readyState s =
    Some (s, Ret [("readyState", Some readyState); ("responseTextLength", Some 0)]) /\
  forall s2,
    text_shaped (hx_responseType (host_xhr this s2)) = true ->
    exists s3,
      spoofXHRState this [("readyState", Some readyState);
                          ("responseTextLength", Some 0)] s2
        = Some (s3, Ret tt) /\
      get_responseText this s3 = Some (s3, Ret EmptyString).
Proof.
  intros Ht Hrs. split.
  - unfold capture. unfold bind at 1. unfold gets at 1. rewrite Ht.
    destruct (Z.ltb_spec readyState 3) as [_|?]; [reflexivity|lia].
  - intros s2 Ht2. eexists. split; [reflexivity|].
    erewrite (get_responseText_captured this _ _ 0).
    + match goal with
      | |- context [host_xhr this ?s3] =>
          change (host_xhr this s3) with (host_xhr this s2)
      end.
      destruct (hx_responseText (host_xhr this s2)) as [|c text]; reflexivity.
    + exact Ht2.
    + simpl. apply lookup_insert_eq.
    + unfold spoof_prop. rewrite lookup_insert_eq. reflexivity.
Qed.

Lemma replay_before_loading_reads_no_response_witness :
  text_shaped (hx_responseType (host_xhr 2%nat initial)) = true /\
  capture 2%nat [VEvent "readystatechange" None] 1 initial =
    Some (initial, Ret [("readyState", Some 1); ("responseTextLength", Some 0)]) /\
  exists s3,
    spoofXHRState 2%nat [("readyState", Some 1); ("responseTextLength", Some 0)]
      done_hello = Some (s3, Ret tt) /\
    get_responseText 2%nat s3 = Some (s3, Ret EmptyString).
Proof.
  split; [reflexivity|].
  destruct (replay_before_loading_reads_no_response 2%nat
              [VEvent "readystatechange" None] 1 initial eq_refl)
    as [Hcapture Hreplay]; [lia|].
  split; [exact Hcapture|].
  exact (Hreplay done_hello eq_refl).
Defined.

(** ** A handler that raises during the drain *)

Lemma drain_replays ext s called s0 :
  replays ext s called s0 ->
  forall fuel,
    drain ext (length called + fuel) s =
      match drain ext fuel s0 with
      | Some (s2, Ret more) => Some (s2, Ret (called ++ more))
      | Some (s2, Exc e) => Some (s2, Exc e)
      | None => None
      end.
Proof.
  induction 1 as [s|s evt rest v s1 called s' Hq Hcall Hrest IH]; intros fuel.
  - simpl. destruct (drain ext fuel s) as [[s2 [more|e]]|]; reflexivity.
  - change (length (evt :: called) + fuel)%nat with (S (length called + fuel)).
    rewrite (drain_shift _ _ _ _ _ Hq), Hcall, IH.
    destruct (drain ext fuel s') as [[s2 [more|e]]|]; reflexivity.
Qed.

Lemma replays_preserves I ext s called s0 :
  framed I ->
  (forall e, preserves I (ext e)) ->
  replays ext s called s0 ->
  I s -> I s0.
Proof.
  intros Hframe Hext. induction 1 as [s|s evt rest v s1 called s' Hq Hcall Hrest IH].
  - auto.
  - intros HI. apply IH.
    eapply (preserves_call_closure I Hframe ext Hext evt); [|exact Hcall].
    eapply Hframe; [exact HI|reflexivity|reflexivity|reflexivity|].
    simpl. discriminate.
Qed.

Lemma external_guarded_above env n d e :
  preserves (guarded_above d) (Script.external env n e).
Proof.
  unfold Script.external. apply preserves_bind.
  - apply preserves_log, guarded_above_framed.
  - intros _. apply exec_invariants.
Qed.

(** X18.  A requested, unguarded drain whose queued functions all
    return makes exactly their calls, one after the other: each time the
    function at the head of the array is removed and called, in the
    state the call before it left, functions pushed during the pass
    included, until the array is empty.  It returns the functions it
    called, in that order, then sets the guard and takes one off the
    depth. *)
Theorem drain_runs_the_queue_in_order ext fuel s called s0 :
  mustUnblockEventsNow s = true ->
  unblockingEvents s = false ->
  replays ext (set_unblockingEvents true (set_mustUnblockEventsNow false s))
    called s0 ->
  currentlyBlockedEvents s0 = Some [] ->
  (length called < fuel)%nat ->
  unblockEventsIfNecessary ext fuel s =
    Some (set_currentlyBlockingOnSyncXHRs (currentlyBlockingOnSyncXHRs s0 - 1)
            (set_unblockingEvents true s0), Ret called).
Proof.
  intros Hm Hg Hrep Hq Hfuel. rewrite (unblock_run _ _ _ Hm Hg).
  replace fuel with (length called + S (fuel - length called - 1))%nat by lia.
  rewrite (drain_replays _ _ _ _ Hrep), (drain_empty _ _ _ Hq), app_nil_r.
  reflexivity.
Qed.

(** The first window of a page with a blocked progress signal, a
    blocked message and a blocked load signal: the drain calls function
    10 with the progress event, then the native [postMessage], then
    function 11 with the load event, and ends at depth 0. *)
Lemma drain_runs_the_queue_in_order_witness :
  mustUnblockEventsNow Scenario.before_first_drain = true /\
  unblockingEvents Scenario.before_first_drain = false /\
  currentlyBlockedEvents Scenario.before_first_drain
    = Some [Scenario.blocked10; Scenario.posted; Scenario.blocked11] /\
  deliveries (trace Scenario.before_first_drain) = [] /\
  deliveries (trace Scenario.first_end)
    = [ECall 10%nat VUndefined [Scenario.progress_event];
       EOldPM (VWindow 0%nat) [VStr "ping"];
       ECall 11%nat VUndefined [Scenario.load_event]] /\
  currentlyBlockingOnSyncXHRs Scenario.first_end = 1 /\
  deliveries (trace Scenario.after_first_drain)
    = deliveries (trace Scenario.first_end) /\
  currentlyBlockedEvents Scenario.after_first_drain = Some [] /\
  currentlyBlockingOnSyncXHRs Scenario.after_first_drain = 0 /\
  unblockEventsIfNecessary (Script.external Scenario.env_windows 5) 4
    Scenario.before_first_drain
  = Some (set_currentlyBlockingOnSyncXHRs
            (currentlyBlockingOnSyncXHRs Scenario.first_end - 1)
            (set_unblockingEvents true Scenario.first_end),
          Ret [Scenario.blocked10; Scenario.posted; Scenario.blocked11]).
Proof.
  assert (Hm : mustUnblockEventsNow Scenario.before_first_drain = true)
    by (vm_compute; reflexivity).
  assert (Hg : unblockingEvents Scenario.before_first_drain = false)
    by (vm_compute; reflexivity).
  assert (Hrep : replays (Script.external Scenario.env_windows 5)
                   (set_unblockingEvents true
                      (set_mustUnblockEventsNow false Scenario.before_first_drain))
                   [Scenario.blocked10; Scenario.posted; Scenario.blocked11]
                   Scenario.first_end).
  { apply (replays_one _ _ Scenario.blocked10
             [Scenario.posted; Scenario.blocked11] VUndefined
             Scenario.first_progress
             [Scenario.posted; Scenario.blocked11] Scenario.first_end).
    - vm_compute. reflexivity.
    - vm_compute. reflexivity.
    - apply (replays_one _ _ Scenario.posted [Scenario.blocked11] VUndefined
               Scenario.first_message [Scenario.blocked11] Scenario.first_end).
      + vm_compute. reflexivity.
      + vm_compute. reflexivity.
      + apply (replays_one _ _ Scenario.blocked11 [] VUndefined
                 Scenario.first_end [] Scenario.first_end).
        * vm_compute. reflexivity.
        * vm_compute. reflexivity.
        * apply replays_none. }
  assert (Hq : currentlyBlockedEvents Scenario.first_end = Some [])
    by (vm_compute; reflexivity).
  assert (Hfuel : (length [Scenario.blocked10; Scenario.posted; Scenario.blocked11]
                   < 4)%nat) by (simpl; lia).
  split; [exact Hm|]. split; [exact Hg|]. split; [vm_compute; reflexivity|].
  split; [vm_compute; reflexivity|]. split; [vm_compute; reflexivity|].
  split; [vm_compute; reflexivity|]. split; [vm_compute; reflexivity|].
  split; [vm_compute; reflexivity|]. split; [vm_compute; reflexivity|].
  exact (drain_runs_the_queue_in_order (Script.external Scenario.env_windows 5) 4
           Scenario.before_first_drain
           [Scenario.blocked10; Scenario.posted; Scenario.blocked11]
           Scenario.first_end Hm Hg Hrep Hq Hfuel).
Defined.

(** C10.  Take a requested, unguarded drain in a page.  If, after any
    number of queued functions have been replayed and have returned,
    the next one raises, [unblockEventsIfNecessary] ends there with that
    exception, in the state that function left: nothing is called after
    it, the depth has not gone down, and the guard, set before the loop,
    is still set.  From then on, after every program, the guard is set,
    the depth has not gone down, and [unblockEventsIfNecessary] calls
    nothing and leaves the array and the depth alone: what is queued
    later is never replayed. *)
Theorem raising_handler_abandons_drain env n fuel s called s0 evt rest s1 e :
  mustUnblockEventsNow s = true ->
  unblockingEvents s = false ->
  replays (Script.external env n)
    (set_unblockingEvents true (set_mustUnblockEventsNow false s)) called s0 ->
  currentlyBlockedEvents s0 = Some (evt :: rest) ->
  call_closure (Script.external env n) evt
    (set_currentlyBlockedEvents (Some rest) s0) = Some (s1, Exc e) ->
  (length called < fuel)%nat ->
  unblockEventsIfNecessary (Script.external env n) fuel s = Some (s1, Exc e) /\
  unblockingEvents s1 = true /\
  currentlyBlockingOnSyncXHRs s <= currentlyBlockingOnSyncXHRs s1 /\
  forall m later s2 o,
    Script.exec env m later s1 = Some (s2, o) ->
    unblockingEvents s2 = true /\
    currentlyBlockingOnSyncXHRs s1 <= currentlyBlockingOnSyncXHRs s2 /\
    forall ext fuel', exists s3,
      unblockEventsIfNecessary ext fuel' s2 = Some (s3, Ret []) /\
      currentlyBlockedEvents s3 = currentlyBlockedEvents s2 /\
      currentlyBlockingOnSyncXHRs s3 = currentlyBlockingOnSyncXHRs s2.
Proof.
  intros Hm Hg Hrep Hq Hcall Hfuel.
  set (start := set_unblockingEvents true (set_mustUnblockEventsNow false s)) in *.
  assert (Hdefined : exists q, currentlyBlockedEvents start = Some q).
  { inversion Hrep; subst; eauto. }
  assert (Hstart : guarded_above (currentlyBlockingOnSyncXHRs s) start).
  { unfold guarded_above, array_known. destruct Hdefined as [q Hq0].
    split; [intros Hnone; congruence|]. split; [reflexivity|]. simpl. lia. }
  assert (H0 : guarded_above (currentlyBlockingOnSyncXHRs s) s0).
  { eapply replays_preserves; [apply guarded_above_framed| |exact Hrep|exact Hstart].
    intros e0. apply external_guarded_above. }
  assert (H1 : guarded_above (currentlyBlockingOnSyncXHRs s) s1).
  { eapply (preserves_call_closure _ (guarded_above_framed _) _
              (external_guarded_above env n _) evt); [|exact Hcall].
    eapply guarded_above_framed; [exact H0|reflexivity|reflexivity|reflexivity|].
    simpl. discriminate. }
  destruct H1 as (Ha1 & Hg1 & Hd1).
  split; [|split; [exact Hg1|split; [exact Hd1|]]].
  - rewrite (unblock_run _ _ _ Hm Hg). fold start.
    replace fuel with (length called + S (fuel - length called - 1))%nat by lia.
    rewrite (drain_replays _ _ _ _ Hrep).
    rewrite (drain_shift _ _ _ evt rest) by exact Hq.
    rewrite Hcall. reflexivity.
  - intros m later s2 o Hlater.
    assert (Hs1 : guarded_above (currentlyBlockingOnSyncXHRs s1) s1).
    { unfold guarded_above. split; [exact Ha1|]. split; [exact Hg1|lia]. }
    destruct (proj1 (exec_invariants env m later) _ _ _ _ Hs1 Hlater)
      as (_ & Hg2 & Hd2).
    split; [exact Hg2|]. split; [exact Hd2|]. intros ext fuel'.
    destruct (guarded_unblock_calls_nothing ext fuel' s2 Hg2)
      as (s3 & H3 & Hq3 & Hd3 & _).
    eauto.
Qed.

(** In a page with a message, a progress signal and a load signal
    blocked, in that order, where the progress handler (function 10)
    raises: the drain calls the native [postMessage], then function 10,
    and ends with its exception.  Function 11 is not called and stays
    in the array, at depth 1, and the drain turn of the page ends in
    the same way. *)
Lemma raising_handler_abandons_drain_witness :
  mustUnblockEventsNow Scenario.before_late_raise = true /\
  unblockingEvents Scenario.before_late_raise = false /\
  currentlyBlockingOnSyncXHRs Scenario.before_late_raise = 1 /\
  currentlyBlockedEvents Scenario.before_late_raise
    = Some [Scenario.posted; Scenario.blocked10; Scenario.blocked11] /\
  deliveries (trace Scenario.before_late_raise) = [] /\
  deliveries (trace Scenario.late_end)
    = [EOldPM (VWindow 0%nat) [VStr "ping"];
       ECall 10%nat VUndefined [Scenario.progress_event]] /\
  currentlyBlockedEvents Scenario.late_end = Some [Scenario.blocked11] /\
  currentlyBlockingOnSyncXHRs Scenario.late_end = 1 /\
  deliveries (trace Scenario.after_late_raise)
    = deliveries (trace Scenario.late_end) /\
  currentlyBlockedEvents Scenario.after_late_raise = Some [Scenario.blocked11] /\
  currentlyBlockingOnSyncXHRs Scenario.after_late_raise = 1 /\
  unblockingEvents Scenario.after_late_raise = true /\
  unblockEventsIfNecessary (Script.external Scenario.env_raise_later 5) 3
    Scenario.before_late_raise = Some (Scenario.late_end, Exc Scenario.boom) /\
  unblockingEvents Scenario.late_end = true /\
  currentlyBlockingOnSyncXHRs Scenario.before_late_raise
    <= currentlyBlockingOnSyncXHRs Scenario.late_end /\
  forall m later s2 o,
    Script.exec Scenario.env_raise_later m later Scenario.late_end = Some (s2, o) ->
    unblockingEvents s2 = true /\
    currentlyBlockingOnSyncXHRs Scenario.late_end <= currentlyBlockingOnSyncXHRs s2 /\
    forall ext fuel', exists s3,
      unblockEventsIfNecessary ext fuel' s2 = Some (s3, Ret []) /\
      currentlyBlockedEvents s3 = currentlyBlockedEvents s2 /\
      currentlyBlockingOnSyncXHRs s3 = currentlyBlockingOnSyncXHRs s2.
Proof.
  assert (Hm : mustUnblockEventsNow Scenario.before_late_raise = true)
    by (vm_compute; reflexivity).
  assert (Hg : unblockingEvents Scenario.before_late_raise = false)
    by (vm_compute; reflexivity).
  assert (Hrep : replays (Script.external Scenario.env_raise_later 5)
                   (set_unblockingEvents true
                      (set_mustUnblockEventsNow false Scenario.before_late_raise))
                   [Scenario.posted] Scenario.late_middle).
  { apply (replays_one _ _ Scenario.posted
             [Scenario.blocked10; Scenario.blocked11] VUndefined
             Scenario.late_middle [] Scenario.late_middle).
    - vm_compute. reflexivity.
    - vm_compute. reflexivity.
    - apply replays_none. }
  assert (Hq : currentlyBlockedEvents Scenario.late_middle
               = Some [Scenario.blocked10; Scenario.blocked11])
    by (vm_compute; reflexivity).
  assert (Hcall : call_closure (Script.external Scenario.env_raise_later 5)
                    Scenario.blocked10
                    (set_currentlyBlockedEvents (Some [Scenario.blocked11])
                       Scenario.late_middle)
                  = Some (Scenario.late_end, Exc Scenario.boom))
    by (vm_compute; reflexivity).
  assert (Hfuel : (length [Scenario.posted] < 3)%nat) by (simpl; lia).
  split; [exact Hm|]. split; [exact Hg|].
  do 10 (split; [vm_compute; reflexivity|]).
  exact (raising_handler_abandons_drain Scenario.env_raise_later 5 3
           Scenario.before_late_raise [Scenario.posted] Scenario.late_middle
           Scenario.blocked10 [Scenario.blocked11] Scenario.late_end Scenario.boom
           Hm Hg Hrep Hq Hcall Hfuel).
Defined.

(** ** Windows after the first *)

(** C1.  A page goes through two windows.  In each, a progress signal
    of request 2, then a posted message, then a load signal of request 2
    are blocked, in that order.  The drain of the first window delivers
    them in push order: function 10 is called with the progress event,
    then the native [postMessage] with the message, then function 11
    with the load event, and the array and the depth are back at empty
    and 0.  The drain turn of the second window delivers nothing: the
    page has received nothing more, the three functions of that window
    sit in the array in push order, the drain is no longer requested, no
    function is scheduled, and the depth stays 1. *)
Theorem later_windows_are_never_replayed :
  deliveries (trace Scenario.after_first_window)
    = [ECall 10%nat VUndefined [Scenario.progress_event];
       EOldPM (VWindow 0%nat) [VStr "ping"];
       ECall 11%nat VUndefined [Scenario.load_event]] /\
  currentlyBlockedEvents Scenario.after_first_window = Some [] /\
  currentlyBlockingOnSyncXHRs Scenario.after_first_window = 0 /\
  deliveries (trace Scenario.after_second_window)
    = deliveries (trace Scenario.after_first_window) /\
  currentlyBlockedEvents Scenario.after_second_window
    = Some [Scenario.blocked10; Scenario.posted; Scenario.blocked11] /\
  mustUnblockEventsNow Scenario.after_second_window = false /\
  microtasks Scenario.after_second_window = [] /\
  currentlyBlockingOnSyncXHRs Scenario.after_second_window = 1.
Proof. vm_compute. repeat split. Qed.
